(** * DynamicAgentRuntime: a shallow embedding of [agents/dynamic.py]

    The runtime executes one conversational turn of a configuration-defined
    agent.  Pure helpers (knowledge assembly, tool catalogue) are plain
    functions; everything that talks to a collaborator (retriever, memory
    store, tool executor, agentic loop, event sink) runs in a small
    state-and-exception monad whose state is the chronological trace of the
    calls made so far.  Calls to the logger change neither a result nor the
    control flow and are left out. *)

From Stdlib Require Import ZArith String Ascii List Bool Lia.
From stdpp Require Import base option list strings pretty gmap.

Local Open Scope string_scope.
Local Open Scope list_scope.
Local Open Scope nat_scope.
Set Warnings "-register-all,-clear-no-such-hyp".

(** ** Python values *)

(** The JSON fragment of Python values: [None], [bool], [int], [str], [list]
    and [dict] with string keys (in insertion order). *)
Inductive json : Type :=
| JNull
| JBool (b : bool)
| JNum (n : Z)
| JStr (s : string)
| JArr (items : list json)
| JObj (fields : list (string * json)).

(** Python truthiness, as tested by [if x:] and [not x]. *)
Definition str_truthy (s : string) : bool :=
  match s with
  | EmptyString => false
  | String _ _ => true
  end.

Definition truthy (v : json) : bool :=
  match v with
  | JNull => false
  | JBool b => b
  | JNum n => negb (n =? 0)%Z
  | JStr s => str_truthy s
  | JArr items => match items with [] => false | _ => true end
  | JObj fields => match fields with [] => false | _ => true end
  end.

Definition opt_str_truthy (o : option string) : bool :=
  match o with
  | Some s => str_truthy s
  | None => false
  end.

(** [v == s] for a string literal [s]. *)
Definition is_str (v : option string) (s : string) : bool :=
  match v with
  | Some s' => String.eqb s' s
  | None => false
  end.

Definition json_is_str (v : json) (s : string) : bool :=
  match v with
  | JStr s' => String.eqb s' s
  | _ => false
  end.

(** [d.get(k)]: the value under [k], or [None]. *)
Definition dict_get (d : gmap string json) (k : string) : json :=
  default JNull (d !! k).

(** [d.get(k, dflt)]. *)
Definition dict_get_default (d : gmap string json) (k : string) (dflt : json) : json :=
  default dflt (d !! k).

(** [type(v).__name__], as it appears in an [AttributeError] message. *)
Definition type_name (v : json) : string :=
  match v with
  | JNull => "NoneType"
  | JBool _ => "bool"
  | JNum _ => "int"
  | JStr _ => "str"
  | JArr _ => "list"
  | JObj _ => "dict"
  end.

(** ** Strings *)

Definition NL : string := String "010"%char EmptyString.

(** [sep.join(parts)]. *)
Fixpoint join (sep : string) (parts : list string) : string :=
  match parts with
  | [] => EmptyString
  | p :: rest =>
      match rest with
      | [] => p
      | _ :: _ => p +:+ sep +:+ join sep rest
      end
  end.

(** A Python [str] is held as its UTF-8 encoding, one [ascii] per byte.

    [str.isspace] on a code point, the white space [str.strip] removes:
    TAB, LF, VT, FF, CR, the separators FS, GS, RS, US, the space, U+0085
    (next line), U+00A0 (no-break space), U+1680, U+2000 to U+200A, U+2028,
    U+2029, U+202F, U+205F and U+3000. *)
Definition is_space (code_point : N) : bool :=
  ((9 <=? code_point) && (code_point <=? 13)
   || (28 <=? code_point) && (code_point <=? 32)
   || (code_point =? 133) || (code_point =? 160) || (code_point =? 5760)
   || (8192 <=? code_point) && (code_point <=? 8202)
   || (code_point =? 8232) || (code_point =? 8233) || (code_point =? 8239)
   || (code_point =? 8287) || (code_point =? 12288))%N.

(** The bytes of an encoded character: the first of two, the first of
    three, a continuation byte; and the code point of a character of two
    and of three bytes. *)
Definition is_lead2 (b : N) : bool := ((194 <=? b) && (b <=? 223))%N.
Definition is_lead3 (b : N) : bool := ((224 <=? b) && (b <=? 239))%N.
Definition is_cont (b : N) : bool := ((128 <=? b) && (b <=? 191))%N.

Definition code2 (b1 b2 : N) : N := ((b1 - 192) * 64 + (b2 - 128))%N.
Definition code3 (b1 b2 b3 : N) : N :=
  ((b1 - 224) * 4096 + (b2 - 128) * 64 + (b3 - 128))%N.

(** [s.lstrip()]: the leading white-space characters are dropped.  (A
    character of four bytes is never white space.) *)
Fixpoint lstrip (s : string) : string :=
  match s with
  | EmptyString => EmptyString
  | String c1 r1 =>
      let b1 := N_of_ascii c1 in
      if (b1 <? 128)%N then (if is_space b1 then lstrip r1 else s)
      else
        match r1 with
        | EmptyString => s
        | String c2 r2 =>
            let b2 := N_of_ascii c2 in
            if is_lead2 b1 then
              (if is_cont b2 && is_space (code2 b1 b2) then lstrip r2 else s)
            else
              match r2 with
              | EmptyString => s
              | String c3 r3 =>
                  let b3 := N_of_ascii c3 in
                  if is_lead3 b1 && is_cont b2 && is_cont b3
                     && is_space (code3 b1 b2 b3)
                  then lstrip r3 else s
              end
        end
  end.

(** The same from the other end, on the reversed encoding: the last byte
    comes first, so a character's bytes are met last to first. *)
Fixpoint lstrip_reversed (s : string) : string :=
  match s with
  | EmptyString => EmptyString
  | String c1 r1 =>
      let b1 := N_of_ascii c1 in
      if (b1 <? 128)%N then (if is_space b1 then lstrip_reversed r1 else s)
      else
        match r1 with
        | EmptyString => s
        | String c2 r2 =>
            let b2 := N_of_ascii c2 in
            if is_lead2 b2 then
              (if is_cont b1 && is_space (code2 b2 b1) then lstrip_reversed r2 else s)
            else
              match r2 with
              | EmptyString => s
              | String c3 r3 =>
                  let b3 := N_of_ascii c3 in
                  if is_lead3 b3 && is_cont b2 && is_cont b1
                     && is_space (code3 b3 b2 b1)
                  then lstrip_reversed r3 else s
              end
        end
  end.

(** [s.rstrip()]. *)
Definition rstrip (s : string) : string :=
  String.rev (lstrip_reversed (String.rev s)).

(** [s.strip()]. *)
Definition strip (s : string) : string := rstrip (lstrip s).

(** ** Data model: the effective configuration

    The configuration is a JSON document; every key the code reads with
    [.get] is an [option] here ([None]: the key is absent).  The
    [model_settings] are kept as the list of their items, in the dict's
    order: the call of the loop takes its further keywords from them in
    that order. *)

Record RagInfo := { rag_status : option string }.

Record KnowledgeEntry := {
  k_name : option string;
  k_content : option string;
  k_inclusion_mode : option string;
  k_rag : option RagInfo
}.

(** The [function] object of a tool: passed to the model as it is. *)
Record FunctionInfo := {
  fn_name : option string;
  fn_description : option string;
  fn_parameters : option json
}.

(** The [_meta] object of a tool: execution metadata, never shown to the model. *)
Record ToolMeta := {
  meta_function_path : option string;
  meta_tool_id : option string;
  meta_is_dynamic : option bool
}.

Record ToolSpec := {
  tool_type : option string;
  tool_function : option FunctionInfo;
  tool_meta : option ToolMeta
}.

Record AgentConfig := {
  cfg_system_prompt : option string;
  cfg_knowledge : option (list KnowledgeEntry);
  cfg_tools : option (list ToolSpec);
  cfg_model : option string;
  cfg_model_settings : option (list (string * json));
  cfg_extra : option (gmap string json);
  cfg_rag_config : option json
}.

(** The empty dict [{}] used as a default for [function], [_meta] and [rag]. *)
Definition empty_function : FunctionInfo :=
  {| fn_name := None; fn_description := None; fn_parameters := None |}.
Definition empty_meta : ToolMeta :=
  {| meta_function_path := None; meta_tool_id := None; meta_is_dynamic := None |}.
Definition empty_rag : RagInfo := {| rag_status := None |}.

(** A provider-facing call schema: exactly the keys [type] and [function]. *)
Record Schema := {
  schema_type : string;
  schema_function : FunctionInfo
}.

(** An entry of the execution map. *)
Record ToolInfo := {
  function_path : option string;
  tool_id : option string;
  is_dynamic : bool
}.

(** ** Memory tool definition *)

Definition MEMORY_TOOL_SCHEMA : Schema :=
  {| schema_type := "function";
     schema_function :=
       {| fn_name := Some "remember";
          fn_description := Some
            ("Store information to remember for this conversation. Use this to remember "
             +:+ "important facts about the user, their preferences, project details, or anything "
             +:+ "that would be useful to recall in future messages within this conversation. "
             +:+ "Examples: user's name, their goals, preferences, important context.");
          fn_parameters := Some
            (JObj [
               ("type", JStr "object");
               ("properties", JObj [
                  ("key", JObj [
                     ("type", JStr "string");
                     ("description", JStr
                        ("A short, descriptive key for what you're remembering "
                         +:+ "(e.g., 'user_name', 'project_goal', 'preferred_language')"))]);
                  ("value", JObj [
                     ("type", JStr "string");
                     ("description", JStr "The information to remember")])]);
               ("required", JArr [JStr "key"; JStr "value"])]) |} |}.

(** ** Knowledge Assembler *)

(** [_build_knowledge_context]: the loop appends one section per
    always-included entry that has content, then joins the sections. *)
Definition _build_knowledge_context (config : AgentConfig) : string :=
  let parts :=
    fold_left
      (fun (parts : list string) (knowledge : KnowledgeEntry) =>
         if is_str (k_inclusion_mode knowledge) "always" then
           match k_content knowledge with
           | Some content =>
               if str_truthy content then
                 let name := default "Knowledge" (k_name knowledge) in
                 parts ++ ["## " +:+ name +:+ NL +:+ content]
               else parts
           | None => parts
           end
         else parts)
      (default [] (cfg_knowledge config)) [] in
  join (NL +:+ NL) parts.

(** ** Tool Catalog Builder *)

(** [_build_tool_schemas]: one schema per tool, the [_meta] field left out. *)
Definition _build_tool_schemas (config : AgentConfig) : list Schema :=
  fold_left
    (fun (schemas : list Schema) (tool : ToolSpec) =>
       let schema :=
         {| schema_type := default "function" (tool_type tool);
            schema_function := default empty_function (tool_function tool) |} in
       schemas ++ [schema])
    (default [] (cfg_tools config)) [].

(** [_build_tool_map]: tool name to execution info; a tool without a name
    (absent or empty) gets no entry. *)
Definition _build_tool_map (config : AgentConfig) : gmap string ToolInfo :=
  fold_left
    (fun (tool_map : gmap string ToolInfo) (tool : ToolSpec) =>
       let func_info := default empty_function (tool_function tool) in
       let tool_name := fn_name func_info in
       match tool_name with
       | Some name =>
           if str_truthy name then
             let meta := default empty_meta (tool_meta tool) in
             <[name :=
                 {| function_path := meta_function_path meta;
                    tool_id := meta_tool_id meta;
                    is_dynamic := default false (meta_is_dynamic meta) |}]> tool_map
           else tool_map
       | None => tool_map
       end)
    (default [] (cfg_tools config)) ∅.

(** ** Turn context, collaborators' objects and results *)

Definition Message : Type := gmap string json.

Record RunContext := {
  input_messages : list Message;
  conversation_id : json;
  run_id : string;
  params : gmap string string;
  metadata : gmap string json
}.

Record AgentDefinition := {
  slug : string;
  def_id : string;
  get_effective_config : AgentConfig
}.

Record DynamicAgentRuntime := {
  _definition : AgentDefinition;
  _config : option AgentConfig
}.

(** The [key] property. *)
Definition key (self : DynamicAgentRuntime) : string := slug (_definition self).

(** The [config] property: the cached configuration, else the definition's
    effective one (the write to the cache does not change the value read). *)
Definition config (self : DynamicAgentRuntime) : AgentConfig :=
  match _config self with
  | Some c => c
  | None => get_effective_config (_definition self)
  end.

Record User := { user_pk : json }.

Record ConversationMemoryStore := {
  store_user : User;
  store_conversation_id : json
}.

Record MemoryRecord := {
  mem_key : string;
  mem_value : string;
  mem_source : string
}.

Record LLMClient := { llm_model : string }.

Inductive DynamicToolExecutor : Set := NewDynamicToolExecutor.

(** What the tool executor hands back: a JSON value, or an object
    [json.dumps] rejects with a [TypeError]. *)
Inductive pyobj :=
| PJson (j : json)
| PObject (type_error : string).

Inductive EventType := ASSISTANT_MESSAGE | RUN_FAILED.

(** The result of the agentic loop, and of the turn. *)
Record LoopResult := {
  final_content : option string;
  loop_messages : list Message
}.

Record RunResult := {
  final_output : json;
  final_messages : list Message
}.

(** The keyword arguments of [run_agentic_loop], the callback and the
    context apart; [la_model_settings] are the keywords that come from
    [**model_settings], in the dict's order. *)
Record LoopArgs := {
  la_llm : LLMClient;
  la_messages : list Message;
  la_tools : option (list Schema);
  la_model : string;
  la_max_iterations : Z;
  la_model_settings : list (string * json)
}.

(** ** Exceptions and the trace of collaborator calls *)

(** An instance of Python's [Exception], the class every handler of this
    module catches; [str(e)] is its message.  Cancellation and the other
    exits that are not an [Exception] are outside the model. *)
Inductive exn := Exception (msg : string).

Definition str_of_exn (e : exn) : string :=
  match e with Exception msg => msg end.

Inductive outcome (A : Type) : Type :=
| Ok (a : A)
| Raise (e : exn).
Arguments Ok {A} a.
Arguments Raise {A} e.

(** One entry per call that leaves the runtime, in the order made. *)
Inductive event :=
| CallRetrieveForAgent (agent_id : string) (query : json) (rag_config : json)
| CallUserGet (user_id : json)
| CallNewMemoryStore (user : User) (conv_id : json)
| CallRecallAll (store : ConversationMemoryStore)
| CallFormatForPrompt (store : ConversationMemoryStore) (memories : list MemoryRecord)
| CallRemember (store : ConversationMemoryStore) (k v source : string)
| CallExecute (path : string) (arguments : gmap string json)
    (agent_run_id : string) (user_id : json) (tid : option string)
| CallGetLLMClient (model : string)
| CallRunAgenticLoop (args : LoopArgs)
| Emit (ty : EventType) (payload : json).

(** The agentic loop as the runtime sees it: it asks for tool executions,
    receives each one's result (or the exception it raised), and ends by
    returning or raising.  The loop's iteration ceiling makes every run a
    finite sequence of such requests. *)
Inductive loop_behaviour :=
| LoopReturn (result : LoopResult)
| LoopRaise (e : exn)
| LoopCallTool (tool_name : string) (tool_args : gmap string json)
    (k : outcome string -> loop_behaviour).

(** The collaborators.  Each answers from the history of calls made before
    it, so an answer may differ from one call to the next. *)
Record Externals := {
  json_dumps : json -> string;
  DEFAULT_MODEL : string;
  retrieve_for_agent : list event -> string -> json -> json -> outcome string;
  User_objects_get : list event -> json -> outcome User;
  new_ConversationMemoryStore :
    list event -> User -> json -> outcome ConversationMemoryStore;
  recall_all : list event -> ConversationMemoryStore -> outcome (list MemoryRecord);
  format_for_prompt :
    list event -> ConversationMemoryStore -> list MemoryRecord -> outcome string;
  remember :
    list event -> ConversationMemoryStore -> string -> string -> string -> outcome unit;
  executor_execute :
    list event -> string -> gmap string json -> string -> json -> option string ->
    outcome pyobj;
  get_llm_client_for_model : list event -> string -> outcome LLMClient;
  run_agentic_loop : list event -> LoopArgs -> loop_behaviour;
  (* how the interpreter names [run_agentic_loop] in the error of a call
     that cannot be made: its qualified name followed by [()] *)
  run_agentic_loop_repr : string
}.

(** ** The monad: a trace threaded through, and exceptions *)

Definition M (A : Type) : Type := list event -> outcome A * list event.

Definition ret {A} (a : A) : M A := fun t => (Ok a, t).

Definition raise {A} (e : exn) : M A := fun t => (Raise e, t).

Definition bind {A B} (m : M A) (k : A -> M B) : M B :=
  fun t =>
    match m t with
    | (Ok a, t') => k a t'
    | (Raise e, t') => (Raise e, t')
    end.

(** [try: m  except Exception as e: h e]. *)
Definition try_except {A} (m : M A) (h : exn -> M A) : M A :=
  fun t =>
    match m t with
    | (Ok a, t') => (Ok a, t')
    | (Raise e, t') => h e t'
    end.

(** A call to a collaborator: it answers from the history so far, and the
    call is recorded. *)
Definition call {A} (ev : event) (answer : list event -> outcome A) : M A :=
  fun t => (answer t, t ++ [ev]).

(** [await ctx.emit(ty, payload)]: the event sink records the event and
    does not raise. *)
Definition emit (ty : EventType) (payload : json) : M unit :=
  fun t => (Ok tt, t ++ [Emit ty payload]).

Notation "x <- m ;; k" := (bind m (fun x => k))
  (at level 100, m at next level, right associativity).
Notation "m ;;; k" := (bind m (fun _ => k))
  (at level 100, right associativity).

(** ** Memory Bridge *)

(** [json.dumps(o)]: a [TypeError] on an object that is not serializable. *)
Definition py_json_dumps (ext : Externals) (o : pyobj) : M string :=
  match o with
  | PJson j => ret (json_dumps ext j)
  | PObject type_error => raise (Exception type_error)
  end.

(** [v.strip()]: an [AttributeError] unless [v] is a [str]. *)
Definition py_strip (v : json) : M string :=
  match v with
  | JStr s => ret (strip s)
  | _ => raise (Exception ("'" +:+ type_name v +:+ "' object has no attribute 'strip'"))
  end.

(** [_get_memory_store]: [None] without the user id or the conversation id,
    and [None] when the user or the store cannot be obtained. *)
Definition _get_memory_store (ext : Externals) (ctx : RunContext)
  : M (option ConversationMemoryStore) :=
  let user_id := dict_get (metadata ctx) "user_id" in
  let conversation_id := conversation_id ctx in
  if negb (truthy user_id) || negb (truthy conversation_id) then
    ret None
  else
    try_except
      (user <- call (CallUserGet user_id)
                 (fun t => User_objects_get ext t user_id) ;;
       store <- call (CallNewMemoryStore user conversation_id)
                  (fun t => new_ConversationMemoryStore ext t user conversation_id) ;;
       ret (Some store))
      (fun e => ret None).

(** [_recall_memories]: the formatted memories, or the empty string when
    there are none or the store fails. *)
Definition _recall_memories (ext : Externals) (memory_store : ConversationMemoryStore)
  : M string :=
  try_except
    (memories <- call (CallRecallAll memory_store)
                   (fun t => recall_all ext t memory_store) ;;
     match memories with
     | _ :: _ =>
         call (CallFormatForPrompt memory_store memories)
           (fun t => format_for_prompt ext t memory_store memories)
     | [] => ret EmptyString
     end)
    (fun e => ret EmptyString).

(** [_execute_remember_tool]. *)
Definition _execute_remember_tool (ext : Externals) (args : gmap string json)
    (memory_store : option ConversationMemoryStore) : M string :=
  match memory_store with
  | None =>
      ret (json_dumps ext (JObj [
        ("error", JStr "Memory not available for this conversation");
        ("hint", JStr "Memory requires a logged-in user and conversation context")]))
  | Some store =>
      key <- py_strip (dict_get_default args "key" (JStr EmptyString)) ;;
      value <- py_strip (dict_get_default args "value" (JStr EmptyString)) ;;
      if negb (str_truthy key) then
        ret (json_dumps ext (JObj [("error", JStr "Missing required parameter: key")]))
      else if negb (str_truthy value) then
        ret (json_dumps ext (JObj [("error", JStr "Missing required parameter: value")]))
      else
        try_except
          (call (CallRemember store key value "agent")
             (fun t => remember ext t store key value "agent") ;;;
           ret (json_dumps ext (JObj [
             ("success", JBool true);
             ("message", JStr ("Remembered: " +:+ key))])))
          (fun e => ret (json_dumps ext (JObj [("error", JStr (str_of_exn e))])))
  end.

(** ** Retrieval Bridge *)

(** The [for msg in reversed(...)] loop with its [break]: the content of
    the first user message met, the empty string when the loop runs out. *)
Fixpoint scan_user_query (reversed_messages : list Message) : json :=
  match reversed_messages with
  | [] => JStr EmptyString
  | msg :: rest =>
      if json_is_str (dict_get msg "role") "user" then
        dict_get_default msg "content" (JStr EmptyString)
      else scan_user_query rest
  end.

(** [_retrieve_rag_knowledge]. *)
Definition _retrieve_rag_knowledge (ext : Externals) (self : DynamicAgentRuntime)
    (config : AgentConfig) (ctx : RunContext) : M string :=
  let rag_knowledge :=
    List.filter
      (fun k => is_str (k_inclusion_mode k) "rag"
                && is_str (rag_status (default empty_rag (k_rag k))) "indexed")
      (default [] (cfg_knowledge config)) in
  match rag_knowledge with
  | [] => ret EmptyString
  | _ :: _ =>
      let user_query := scan_user_query (rev (input_messages ctx)) in
      if negb (truthy user_query) then ret EmptyString
      else
        try_except
          (let rag_config := default (JObj []) (cfg_rag_config config) in
           context <- call
             (CallRetrieveForAgent (def_id (_definition self)) user_query rag_config)
             (fun t => retrieve_for_agent ext t (def_id (_definition self))
                         user_query rag_config) ;;
           ret context)
          (fun e => ret EmptyString)
  end.

(** ** Tool Dispatcher *)

(** [_execute_tool]. *)
Definition _execute_tool (ext : Externals) (tool_name : string)
    (tool_args : gmap string json) (tool_map : gmap string ToolInfo)
    (executor : DynamicToolExecutor) (ctx : RunContext) : M string :=
  let tool_info := tool_map !! tool_name in
  let no_function_path :=
    ret (json_dumps ext (JObj [
      ("error", JStr ("Tool '" +:+ tool_name +:+ "' has no function_path configured"))])) in
  match tool_info ≫= function_path with
  | None => no_function_path
  | Some path =>
      if negb (str_truthy path) then no_function_path
      else
        try_except
          (let user_id := dict_get (metadata ctx) "user_id" in
           result <- call
             (CallExecute path tool_args (run_id ctx) user_id (tool_info ≫= tool_id))
             (fun t => executor_execute ext t path tool_args (run_id ctx) user_id
                         (tool_info ≫= tool_id)) ;;
           match result with
           | PJson (JStr s) => ret s
           | _ => py_json_dumps ext result
           end)
          (fun e => ret (json_dumps ext (JObj [("error", JStr (str_of_exn e))])))
  end.

(** The [execute_tool] closure of [run]. *)
Definition execute_tool (ext : Externals) (ctx : RunContext)
    (tool_map : gmap string ToolInfo) (tool_executor : DynamicToolExecutor)
    (memory_store : option ConversationMemoryStore)
    (tool_name : string) (tool_args : gmap string json) : M string :=
  if String.eqb tool_name "remember" then
    _execute_remember_tool ext tool_args memory_store
  else
    _execute_tool ext tool_name tool_args tool_map tool_executor ctx.

(** ** Turn Orchestrator *)

(** The loop at work: each tool request is answered by the callback. *)
Fixpoint drive (callback : string -> gmap string json -> M string)
    (b : loop_behaviour) : M LoopResult :=
  match b with
  | LoopReturn result => ret result
  | LoopRaise e => raise e
  | LoopCallTool tool_name tool_args k =>
      fun t =>
        let '(answer, t') := callback tool_name tool_args t in
        drive callback (k answer) t'
  end.

(** [await run_agentic_loop(..., execute_tool=callback, ...)]. *)
Definition call_run_agentic_loop (ext : Externals) (args : LoopArgs)
    (callback : string -> gmap string json -> M string) : M LoopResult :=
  fun t => drive callback (run_agentic_loop ext t args) (t ++ [CallRunAgenticLoop args]).

Definition opt_str_json (o : option string) : json :=
  match o with
  | Some s => JStr s
  | None => JNull
  end.

Definition system_message (system_prompt : string) : Message :=
  <["role" := JStr "system"]> (<["content" := JStr system_prompt]> ∅).

(** [a or b] on optional strings, and [a or d] with a string to fall back on. *)
Definition opt_or (a b : option string) : option string :=
  if opt_str_truthy a then a else b.

Definition opt_or_else (a : option string) (d : string) : string :=
  match a with
  | Some s => if str_truthy s then s else d
  | None => d
  end.

(** The keywords [run] gives [run_agentic_loop] by name. *)
Definition LOOP_KEYWORDS : list string :=
  ["llm"; "messages"; "tools"; "execute_tool"; "ctx"; "model"; "max_iterations"].

(** [f(name=..., **model_settings)]: the first key of [model_settings], in
    the dict's order, that repeats a keyword given by name.  With such a key
    the call is a [TypeError] and [f] is not entered. *)
Definition repeated_keyword (model_settings : list (string * json)) : option string :=
  List.find (fun k => existsb (String.eqb k) LOOP_KEYWORDS) (map fst model_settings).

Definition multiple_values (ext : Externals) (keyword : string) : exn :=
  Exception (run_agentic_loop_repr ext
             +:+ " got multiple values for keyword argument '" +:+ keyword +:+ "'").

(** [run]. *)
Definition run (ext : Externals) (self : DynamicAgentRuntime) (ctx : RunContext)
  : M RunResult :=
  let config := config self in
  let extra_config := default ∅ (cfg_extra config) in
  let memory_enabled :=
    truthy (dict_get_default extra_config "memory_enabled" (JBool true)) in
  let system_prompt := default EmptyString (cfg_system_prompt config) in
  let knowledge_context := _build_knowledge_context config in
  let system_prompt :=
    if str_truthy knowledge_context
    then system_prompt +:+ NL +:+ NL +:+ knowledge_context
    else system_prompt in
  rag_context <- _retrieve_rag_knowledge ext self config ctx ;;
  let system_prompt :=
    if str_truthy rag_context
    then system_prompt +:+ NL +:+ NL +:+ rag_context
    else system_prompt in
  memory <-
    (if memory_enabled then
       memory_store <- _get_memory_store ext ctx ;;
       match memory_store with
       | Some store =>
           memory_context <- _recall_memories ext store ;;
           ret (memory_store,
                if str_truthy memory_context
                then system_prompt +:+ NL +:+ NL +:+ memory_context
                else system_prompt)
       | None => ret (memory_store, system_prompt)
       end
     else ret (None, system_prompt)) ;;
  let memory_store := fst memory in
  let system_prompt := snd memory in
  let messages :=
    (if str_truthy system_prompt then [system_message system_prompt] else [])
    ++ input_messages ctx in
  let tools := _build_tool_schemas config in
  let tools := if memory_enabled then tools ++ [MEMORY_TOOL_SCHEMA] else tools in
  let tool_map := _build_tool_map config in
  let model :=
    opt_or_else (opt_or (params ctx !! "model") (cfg_model config)) (DEFAULT_MODEL ext) in
  let model_settings := default [] (cfg_model_settings config) in
  llm <- call (CallGetLLMClient model) (fun t => get_llm_client_for_model ext t model) ;;
  let tool_executor := NewDynamicToolExecutor in
  try_except
    (result <-
       match repeated_keyword model_settings with
       | Some keyword => raise (multiple_values ext keyword)
       | None =>
           call_run_agentic_loop ext
             {| la_llm := llm;
                la_messages := messages;
                la_tools := match tools with [] => None | _ :: _ => Some tools end;
                la_model := model;
                la_max_iterations := 15;
                la_model_settings := model_settings |}
             (execute_tool ext ctx tool_map tool_executor memory_store)
       end ;;
     (if opt_str_truthy (final_content result) then
        emit ASSISTANT_MESSAGE (JObj [("content", opt_str_json (final_content result))])
      else ret tt) ;;;
     ret {| final_output := JObj [("response", opt_str_json (final_content result))];
            final_messages := loop_messages result |})
    (fun e =>
       emit RUN_FAILED (JObj [("error", JStr (str_of_exn e))]) ;;;
       raise e).

(** * Reference points for the statements *)

(** A knowledge entry the assembler keeps: always included, with content. *)
Definition always_with_content (k : KnowledgeEntry) : bool :=
  is_str (k_inclusion_mode k) "always" && opt_str_truthy (k_content k).

(** The section an entry contributes: a header line, then the body. *)
Definition knowledge_section (k : KnowledgeEntry) : string :=
  "## " +:+ default "Knowledge" (k_name k) +:+ NL +:+ default EmptyString (k_content k).

(** A tool stripped to its provider-facing part. *)
Definition strip_meta (tool : ToolSpec) : Schema :=
  {| schema_type := default "function" (tool_type tool);
     schema_function := default empty_function (tool_function tool) |}.

(** The name a tool declares, when it declares one. *)
Definition declared_name (tool : ToolSpec) : option string :=
  match fn_name (default empty_function (tool_function tool)) with
  | Some name => if str_truthy name then Some name else None
  | None => None
  end.

(** The execution info a tool carries in its [_meta]. *)
Definition info_of (tool : ToolSpec) : ToolInfo :=
  let meta := default empty_meta (tool_meta tool) in
  {| function_path := meta_function_path meta;
     tool_id := meta_tool_id meta;
     is_dynamic := default false (meta_is_dynamic meta) |}.

Definition memory_enabled_of (cfg : AgentConfig) : bool :=
  truthy (dict_get_default (default ∅ (cfg_extra cfg)) "memory_enabled" (JBool true)).

(** One round of the [_build_tool_map] loop. *)
Definition tool_map_step (tool_map : gmap string ToolInfo) (tool : ToolSpec)
  : gmap string ToolInfo :=
  match declared_name tool with
  | Some name => <[name := info_of tool]> tool_map
  | None => tool_map
  end.

(** Whether a tool declares the name [n]. *)
Definition declares (n : string) (tool : ToolSpec) : bool :=
  is_str (declared_name tool) n.

(** A knowledge entry retrieval applies to: mode [rag], status [indexed]. *)
Definition rag_indexed (k : KnowledgeEntry) : bool :=
  is_str (k_inclusion_mode k) "rag"
  && is_str (rag_status (default empty_rag (k_rag k))) "indexed".

Definition is_user (msg : Message) : bool :=
  json_is_str (dict_get msg "role") "user".

Definition content_of (msg : Message) : json :=
  dict_get_default msg "content" (JStr EmptyString).

(** A layer is appended, after a blank line, only when it is not empty. *)
Definition append_layer (prompt layer : string) : string :=
  if str_truthy layer then prompt +:+ NL +:+ NL +:+ layer else prompt.

(** The layers appended to the base prompt, in order. *)
Definition assemble (base : string) (layers : list string) : string :=
  fold_left append_layer layers base.

Definition base_prompt (cfg : AgentConfig) : string :=
  default EmptyString (cfg_system_prompt cfg).

(** The message list handed to the loop: the system message, when the
    prompt is not empty, then the conversation. *)
Definition messages_with (system_prompt : string) (ctx : RunContext) : list Message :=
  (if str_truthy system_prompt then [system_message system_prompt] else [])
  ++ input_messages ctx.

Definition model_of (ext : Externals) (cfg : AgentConfig) (ctx : RunContext) : string :=
  opt_or_else (opt_or (params ctx !! "model") (cfg_model cfg)) (DEFAULT_MODEL ext).

Definition tools_of (cfg : AgentConfig) : list Schema :=
  if memory_enabled_of cfg
  then _build_tool_schemas cfg ++ [MEMORY_TOOL_SCHEMA]
  else _build_tool_schemas cfg.

(** The keywords that come from the configuration's [model_settings]. *)
Definition settings_of (cfg : AgentConfig) : list (string * json) :=
  default [] (cfg_model_settings cfg).

Definition loop_args (ext : Externals) (cfg : AgentConfig) (ctx : RunContext)
    (llm : LLMClient) (system_prompt : string) : LoopArgs :=
  {| la_llm := llm;
     la_messages := messages_with system_prompt ctx;
     la_tools := match tools_of cfg with [] => None | _ :: _ => Some (tools_of cfg) end;
     la_model := model_of ext cfg ctx;
     la_max_iterations := 15;
     la_model_settings := settings_of cfg |}.

(** The memory step of [run]: the handle acquired for the turn (if any)
    and the recalled text (empty when there is none), with the trace
    before and after. *)
Inductive memory_phase (ext : Externals) (ctx : RunContext) (enabled : bool)
    (t : list event) : option ConversationMemoryStore → string → list event → Prop :=
| memory_disabled :
    enabled = false →
    memory_phase ext ctx enabled t None EmptyString t
| memory_absent t' :
    enabled = true →
    _get_memory_store ext ctx t = (Ok None, t') →
    memory_phase ext ctx enabled t None EmptyString t'
| memory_recalled store t1 text t' :
    enabled = true →
    _get_memory_store ext ctx t = (Ok (Some store), t1) →
    _recall_memories ext store t1 = (Ok text, t') →
    memory_phase ext ctx enabled t (Some store) text t'.

(** The second half of [run], from the message list on. *)
Definition finish_turn (ext : Externals) (cfg : AgentConfig) (ctx : RunContext)
    (memory_store : option ConversationMemoryStore) (system_prompt : string)
  : M RunResult :=
  llm <- call (CallGetLLMClient (model_of ext cfg ctx))
           (fun t => get_llm_client_for_model ext t (model_of ext cfg ctx)) ;;
  try_except
    (result <-
       match repeated_keyword (settings_of cfg) with
       | Some keyword => raise (multiple_values ext keyword)
       | None =>
           call_run_agentic_loop ext (loop_args ext cfg ctx llm system_prompt)
             (execute_tool ext ctx (_build_tool_map cfg) NewDynamicToolExecutor
                memory_store)
       end ;;
     (if opt_str_truthy (final_content result) then
        emit ASSISTANT_MESSAGE (JObj [("content", opt_str_json (final_content result))])
      else ret tt) ;;;
     ret {| final_output := JObj [("response", opt_str_json (final_content result))];
            final_messages := loop_messages result |})
    (fun e =>
       emit RUN_FAILED (JObj [("error", JStr (str_of_exn e))]) ;;;
       raise e).

(** The payload of the run-failed event for an exception. *)
Definition failure_of (e : exn) : json := JObj [("error", JStr (str_of_exn e))].

(** The events the orchestrator emitted, in order. *)
Definition emitted (t : list event) : list (EventType * json) :=
  omap (fun ev => match ev with Emit ty payload => Some (ty, payload) | _ => None end) t.

(** The calls to the tool executor, and to the store's [remember]. *)
Definition is_execute_call (ev : event) : bool :=
  match ev with CallExecute _ _ _ _ _ => true | _ => false end.

Definition is_remember_call (ev : event) : bool :=
  match ev with CallRemember _ _ _ _ => true | _ => false end.

(** * Examples: a concrete world *)

Definition DQ : string := String "034"%char EmptyString.

Fixpoint escape (s : string) : string :=
  match s with
  | EmptyString => EmptyString
  | String c rest =>
      (if Ascii.eqb c "034" then "\" +:+ DQ
       else if Ascii.eqb c "\" then "\\"
       else if Ascii.eqb c "010" then "\n"
       else String c EmptyString) +:+ escape rest
  end.

(** A serializer in the format of [json.dumps], for texts of printable
    ASCII characters, the line feed included. *)
Fixpoint example_dumps (j : json) : string :=
  match j with
  | JNull => "null"
  | JBool true => "true"
  | JBool false => "false"
  | JNum n => pretty n
  | JStr s => DQ +:+ escape s +:+ DQ
  | JArr items => "[" +:+ join ", " (map example_dumps items) +:+ "]"
  | JObj fields =>
      "{" +:+ join ", "
                (map (fun kv => DQ +:+ escape (fst kv) +:+ DQ +:+ ": "
                                +:+ example_dumps (snd kv)) fields)
      +:+ "}"
  end.

(** A world whose retriever, store, executor and loop behave as given. *)
Definition example_world (retrieved : outcome string) (user : outcome User)
    (persisted : outcome unit) (executed : outcome pyobj) (loop : loop_behaviour)
  : Externals :=
  {| json_dumps := example_dumps;
     DEFAULT_MODEL := "default-model";
     retrieve_for_agent := fun _ _ _ _ => retrieved;
     User_objects_get := fun _ _ => user;
     new_ConversationMemoryStore := fun _ u c =>
       Ok {| store_user := u; store_conversation_id := c |};
     recall_all := fun _ _ =>
       Ok [{| mem_key := "name"; mem_value := "Ada"; mem_source := "agent" |}];
     format_for_prompt := fun _ _ memories =>
       Ok ("## Memories" +:+ NL
           +:+ join NL (map (fun m => mem_key m +:+ ": " +:+ mem_value m) memories));
     remember := fun _ _ _ _ _ => persisted;
     executor_execute := fun _ _ _ _ _ _ => executed;
     get_llm_client_for_model := fun _ model => Ok {| llm_model := model |};
     run_agentic_loop := fun _ _ => loop;
     run_agentic_loop_repr := "agent_runtime_core.agentic_loop.run_agentic_loop()" |}.

Definition user_message (text : string) : Message :=
  <["role" := JStr "user"]> (<["content" := JStr text]> ∅).

Definition anonymous_ctx (msgs : list Message) : RunContext :=
  {| input_messages := msgs;
     conversation_id := JNull;
     run_id := "run-1";
     params := ∅;
     metadata := ∅ |}.

Definition signed_in_ctx (msgs : list Message) : RunContext :=
  {| input_messages := msgs;
     conversation_id := JStr "conv-1";
     run_id := "run-1";
     params := ∅;
     metadata := <["user_id" := JNum 7]> ∅ |}.

Definition runtime_of (cfg : AgentConfig) : DynamicAgentRuntime :=
  {| _definition := {| slug := "helper"; def_id := "agent-1"; get_effective_config := cfg |};
     _config := None |}.

Definition policy_entry : KnowledgeEntry :=
  {| k_name := Some "Policy";
     k_content := Some "No refunds.";
     k_inclusion_mode := Some "always";
     k_rag := None |}.

Definition manual_entry : KnowledgeEntry :=
  {| k_name := Some "Manual";
     k_content := None;
     k_inclusion_mode := Some "rag";
     k_rag := Some {| rag_status := Some "indexed" |} |}.

Definition example_config (knowledge : list KnowledgeEntry) (tools : list ToolSpec)
    (memory_enabled : bool) : AgentConfig :=
  {| cfg_system_prompt := Some "Be helpful.";
     cfg_knowledge := Some knowledge;
     cfg_tools := Some tools;
     cfg_model := None;
     cfg_model_settings := None;
     cfg_extra := Some (<["memory_enabled" := JBool memory_enabled]> ∅);
     cfg_rag_config := None |}.

Definition named_tool (name path : string) : ToolSpec :=
  {| tool_type := Some "function";
     tool_function := Some {| fn_name := Some name;
                              fn_description := None;
                              fn_parameters := None |};
     tool_meta := Some {| meta_function_path := Some path;
                          meta_tool_id := None;
                          meta_is_dynamic := None |} |}.

Definition says (text : option string) : loop_behaviour :=
  LoopReturn {| final_content := text; loop_messages := [] |}.

(** A call made on behalf of a tool request. *)
Definition is_tool_call (ev : event) : bool :=
  is_execute_call ev || is_remember_call ev.

(** The turn started at [t] reaches the loop: after [before], the trace
    goes on with the LLM client lookup and the loop invocation. *)
Definition loop_called (ext : Externals) (self : DynamicAgentRuntime) (ctx : RunContext)
    (t before : list event) (args : LoopArgs) : Prop :=
  ∃ after,
    (run ext self ctx t).2
    = before ++ [CallGetLLMClient (la_model args); CallRunAgenticLoop args] ++ after.

(** * The runtime's own state *)

(** [__init__]: no configuration is cached yet. *)
Definition new_runtime (agent_definition : AgentDefinition) : DynamicAgentRuntime :=
  {| _definition := agent_definition; _config := None |}.

(** The [config] property with its write to the cache: the value read and
    the runtime after the access. *)
Definition config_property (self : DynamicAgentRuntime)
  : AgentConfig * DynamicAgentRuntime :=
  match _config self with
  | Some c => (c, self)
  | None =>
      let c := get_effective_config (_definition self) in
      (c, {| _definition := _definition self; _config := Some c |})
  end.

(** [refresh_config]: [refresh_from_db] gives the definition as the database
    has it now, and the cache is dropped. *)
Definition refresh_config (refresh_from_db : AgentDefinition → AgentDefinition)
    (self : DynamicAgentRuntime) : DynamicAgentRuntime :=
  {| _definition := refresh_from_db (_definition self); _config := None |}.

(** The definition object changes under the runtime (an edit saved through
    the same object), the cache is not touched. *)
Definition with_definition (agent_definition : AgentDefinition)
    (self : DynamicAgentRuntime) : DynamicAgentRuntime :=
  {| _definition := agent_definition; _config := _config self |}.

(** * branding.py *)

(** A value of the branding settings: [None], a boolean, a string, or a
    dict with string keys. *)
Inductive setting : Set :=
| SNone
| SBool (b : bool)
| SStr (s : string)
| SDict (d : gmap string setting).

Definition setting_type_name (v : setting) : string :=
  match v with
  | SNone => "NoneType"
  | SBool _ => "bool"
  | SStr _ => "str"
  | SDict _ => "dict"
  end.

(** An attribute [name=value] of the logo's markup, with its leading blank. *)
Definition attr (name value : string) : string :=
  " " +:+ name +:+ "=" +:+ DQ +:+ value +:+ DQ.

Definition DEFAULT_LOGO_SVG : string :=
  NL +:+ "        <svg" +:+ attr "viewBox" "0 0 80 32" +:+ attr "fill" "none"
  +:+ attr "xmlns" "http://www.w3.org/2000/svg" +:+ attr "class" "h-7" +:+ ">"
  +:+ NL +:+ "            <text" +:+ attr "x" "0" +:+ attr "y" "24"
  +:+ attr "fill" "currentColor"
  +:+ attr "font-family" "system-ui, -apple-system, sans-serif"
  +:+ attr "font-size" "24" +:+ attr "font-weight" "700" +:+ ">AS</text>"
  +:+ NL +:+ "        </svg>"
  +:+ NL +:+ "    ".

Definition DEFAULT_COLORS : gmap string setting :=
  list_to_map [
    ("primary", SStr "#00142E");
    ("primary_light", SStr "#0a2540");
    ("primary_dark", SStr "#000d1f");
    ("accent", SStr "#4fc4f7");
    ("accent_light", SStr "#7dd3fc");
    ("accent_dark", SStr "#3db8eb");
    ("secondary", SStr "#253547");
    ("secondary_light", SStr "#334155");
    ("secondary_dark", SStr "#1e293b")].

Definition DEFAULT_BRANDING : gmap string setting :=
  list_to_map [
    ("app_name", SStr "Agent Studio");
    ("logo_svg", SStr DEFAULT_LOGO_SVG);
    ("show_app_name", SBool true);
    ("colors", SDict DEFAULT_COLORS);
    ("chat_primary_color", SStr "#00142E");
    ("custom_css", SStr EmptyString)].

(** [d[k]]: a [KeyError] when [k] is not in [d]. *)
Definition getitem (d : gmap string setting) (k : string) : outcome setting :=
  match d !! k with
  | Some v => Ok v
  | None => Raise (Exception ("'" +:+ k +:+ "'"))
  end.

(** One round of the loop of [get_branding]: [merged[key] = ...]. *)
Definition merge_entry (key : string) (value : setting) (merged : gmap string setting)
  : outcome (gmap string setting) :=
  match value with
  | SDict d =>
      if String.eqb key "colors" then
        match getitem DEFAULT_BRANDING "colors" with
        | Ok (SDict default_colors) =>
            (* {**DEFAULT_BRANDING['colors'], **value} *)
            Ok (<["colors" := SDict (d ∪ default_colors)]> merged)
        | Ok other =>
            Raise (Exception ("'" +:+ setting_type_name other
                              +:+ "' object is not a mapping"))
        | Raise e => Raise e
        end
      else Ok (<[key := value]> merged)
  | _ => Ok (<[key := value]> merged)
  end.

(** [get_branding]: [branding_setting] is the [AGENT_STUDIO_BRANDING]
    attribute of the Django settings, [None] when they have none.  A
    setting that is not a dict has no [items] to iterate. *)
Definition get_branding (branding_setting : option setting)
  : outcome (gmap string setting) :=
  match default (SDict ∅) branding_setting with
  | SDict user_branding =>
      map_fold
        (fun key value (merged : outcome (gmap string setting)) =>
           match merged with
           | Ok m => merge_entry key value m
           | Raise e => Raise e
           end)
        (Ok DEFAULT_BRANDING) user_branding
  | other =>
      Raise (Exception ("'" +:+ setting_type_name other
                        +:+ "' object has no attribute 'items'"))
  end.

(** [branding_context_processor]: the request is not read. *)
Definition branding_context_processor (branding_setting : option setting)
  : outcome (gmap string setting) :=
  match get_branding branding_setting with
  | Raise e => Raise e
  | Ok branding =>
      match getitem branding "app_name", getitem branding "logo_svg",
            getitem branding "show_app_name", getitem branding "colors",
            getitem branding "chat_primary_color", getitem branding "custom_css" with
      | Ok app_name, Ok logo_svg, Ok show_app_name, Ok colors, Ok chat_primary_color,
        Ok custom_css =>
          Ok (list_to_map [
            ("studio_branding", SDict branding);
            ("studio_app_name", app_name);
            ("studio_logo_svg", logo_svg);
            ("studio_show_app_name", show_app_name);
            ("studio_colors", colors);
            ("studio_chat_primary_color", chat_primary_color);
            ("studio_custom_css", custom_css)])
      | Raise e, _, _, _, _, _
      | Ok _, Raise e, _, _, _, _
      | Ok _, Ok _, Raise e, _, _, _
      | Ok _, Ok _, Ok _, Raise e, _, _
      | Ok _, Ok _, Ok _, Ok _, Raise e, _
      | Ok _, Ok _, Ok _, Ok _, Ok _, Raise e => Raise e
      end
  end.

(** * Reference points for the further statements *)

(** What the merge stores under [key] for the user's [value]: the palette
    completed with the default colours for a dict under [colors], the value
    itself otherwise. *)
Definition merged_value (key : string) (value : setting) : setting :=
  match value with
  | SDict d => if String.eqb key "colors" then SDict (d ∪ DEFAULT_COLORS) else value
  | _ => value
  end.

(** The calls that touch the user table or the memory store. *)
Definition is_memory_call (ev : event) : bool :=
  match ev with
  | CallUserGet _ | CallNewMemoryStore _ _ | CallRecallAll _
  | CallFormatForPrompt _ _ | CallRemember _ _ _ _ => true
  | _ => false
  end.

(** What a call made for a tool request may look like in a turn with
    context [ctx], execution map [tool_map] and memory handle [handle]. *)
Definition tool_call_ok (ctx : RunContext) (tool_map : gmap string ToolInfo)
    (handle : option ConversationMemoryStore) (ev : event) : Prop :=
  match ev with
  | CallExecute path _ agent_run_id user_id tid =>
      ∃ name info,
        name ≠ "remember"
        ∧ tool_map !! name = Some info
        ∧ function_path info = Some path
        ∧ path ≠ EmptyString
        ∧ tid = tool_id info
        ∧ agent_run_id = run_id ctx
        ∧ user_id = dict_get (metadata ctx) "user_id"
  | CallRemember store k v source =>
      handle = Some store ∧ source = "agent" ∧ k ≠ EmptyString ∧ v ≠ EmptyString
  | _ => False
  end.

(** The call to the retriever. *)
Definition is_retrieve_call (ev : event) : bool :=
  match ev with CallRetrieveForAgent _ _ _ => true | _ => false end.

Definition is_llm_lookup (ev : event) : bool :=
  match ev with CallGetLLMClient _ => true | _ => false end.

Definition is_loop_call (ev : event) : bool :=
  match ev with CallRunAgenticLoop _ => true | _ => false end.

Definition is_emit (ev : event) : bool :=
  match ev with Emit _ _ => true | _ => false end.

(** How many entries of a trace are of a kind. *)
Definition count (kind : event → bool) (t : list event) : nat :=
  length (List.filter kind t).

(** * Properties *)

(** ** Strings and lists *)

Section fold_snoc.
Context {A B : Type} (keep : A → bool) (f : A → B).

(** A loop that appends [f x] for the elements it keeps builds the
    filtered, mapped list after what was there. *)
Lemma fold_left_snoc (l : list A) (acc : list B) :
  fold_left (fun acc x => if keep x then acc ++ [f x] else acc) l acc
  = acc ++ map f (List.filter keep l).
Proof.
  revert acc. induction l as [|x l IH]; intros acc; simpl.
  - by rewrite app_nil_r.
  - rewrite IH. destruct (keep x); simpl; [|done].
    by rewrite <- app_assoc.
Qed.
End fold_snoc.

(** ** Knowledge Assembler *)

Lemma knowledge_loop_step (parts : list string) (k : KnowledgeEntry) :
  (if is_str (k_inclusion_mode k) "always" then
     match k_content k with
     | Some content =>
         if str_truthy content then
           parts ++ ["## " +:+ default "Knowledge" (k_name k) +:+ NL +:+ content]
         else parts
     | None => parts
     end
   else parts)
  = if always_with_content k then parts ++ [knowledge_section k] else parts.
Proof.
  unfold always_with_content, knowledge_section.
  destruct (is_str _ _); [|done].
  destruct (k_content k) as [content|]; [|done].
  simpl. by destruct (str_truthy content).
Qed.

Lemma knowledge_loop (ks : list KnowledgeEntry) (acc : list string) :
  fold_left
    (fun (parts : list string) (knowledge : KnowledgeEntry) =>
       if is_str (k_inclusion_mode knowledge) "always" then
         match k_content knowledge with
         | Some content =>
             if str_truthy content then
               let name := default "Knowledge" (k_name knowledge) in
               parts ++ ["## " +:+ name +:+ NL +:+ content]
             else parts
         | None => parts
         end
       else parts) ks acc
  = acc ++ map knowledge_section (List.filter always_with_content ks).
Proof.
  rewrite <- fold_left_snoc. revert acc.
  induction ks as [|k ks IH]; intros acc; [done|].
  cbn [fold_left]. cbv zeta. rewrite IH. f_equal. apply knowledge_loop_step.
Qed.

Lemma build_knowledge_context_filter (config : AgentConfig) :
  _build_knowledge_context config
  = join (NL +:+ NL)
      (map knowledge_section
         (List.filter always_with_content (default [] (cfg_knowledge config)))).
Proof. unfold _build_knowledge_context. by rewrite knowledge_loop. Qed.

(** C8. The Knowledge Assembler output is exactly the sections, a header
    line [## name] followed by the content, of the entries with inclusion
    mode [always] and non-empty content, in list order and joined by blank
    lines.  An entry in mode [rag], or without content, can be dropped from
    the list without changing the output, and the output is empty when no
    entry qualifies. *)
Theorem knowledge_assembler_exact (config : AgentConfig) :
  let entries := default [] (cfg_knowledge config) in
  _build_knowledge_context config
  = join (NL +:+ NL) (map knowledge_section (List.filter always_with_content entries))
  ∧ (∀ config' before k after,
       entries = before ++ k :: after →
       default [] (cfg_knowledge config') = before ++ after →
       k_inclusion_mode k = Some "rag" ∨ k_content k = None ∨ k_content k = Some EmptyString →
       _build_knowledge_context config = _build_knowledge_context config')
  ∧ (Forall (fun k => always_with_content k = false) entries →
     _build_knowledge_context config = EmptyString).
Proof.
  intros entries. split; [apply build_knowledge_context_filter|]. split.
  - intros config' before k after Hcfg Hcfg' Hk.
    rewrite !build_knowledge_context_filter. fold entries. rewrite Hcfg, Hcfg'.
    rewrite !List.filter_app. simpl.
    replace (always_with_content k) with false; [done|].
    unfold always_with_content.
    destruct Hk as [-> | [-> | ->]]; [done | |]; by rewrite andb_false_r.
  - intros Hnone. rewrite build_knowledge_context_filter. fold entries.
    replace (List.filter always_with_content entries) with (@nil KnowledgeEntry); [done|].
    induction Hnone as [|k ks Hk _ IH]; [done|]. simpl. by rewrite Hk.
Qed.

(** ** Tool Catalog Builder *)

Lemma tool_schemas_loop (tools : list ToolSpec) (acc : list Schema) :
  fold_left
    (fun (schemas : list Schema) (tool : ToolSpec) =>
       let schema :=
         {| schema_type := default "function" (tool_type tool);
            schema_function := default empty_function (tool_function tool) |} in
       schemas ++ [schema]) tools acc
  = acc ++ map strip_meta tools.
Proof.
  revert acc. induction tools as [|tool tools IH]; intros acc.
  - by rewrite app_nil_r.
  - cbn [fold_left map]. cbv zeta. rewrite IH. by rewrite <- app_assoc.
Qed.

Lemma build_tool_schemas_map (config : AgentConfig) :
  _build_tool_schemas config = map strip_meta (default [] (cfg_tools config)).
Proof. unfold _build_tool_schemas. by rewrite tool_schemas_loop. Qed.

Lemma build_tool_map_fold (config : AgentConfig) :
  _build_tool_map config = fold_left tool_map_step (default [] (cfg_tools config)) ∅.
Proof.
  unfold _build_tool_map. generalize (∅ : gmap string ToolInfo).
  induction (default [] (cfg_tools config)) as [|tool tools IH]; intros m; [done|].
  cbn [fold_left]. rewrite IH. f_equal.
  unfold tool_map_step, declared_name, info_of.
  destruct (fn_name _) as [name|]; [|done]. by destruct (str_truthy name).
Qed.

Lemma declares_spec n tool : declares n tool = true ↔ declared_name tool = Some n.
Proof.
  unfold declares, is_str. destruct (declared_name tool) as [s|]; [|done].
  rewrite String.eqb_eq. naive_solver.
Qed.

Lemma tool_map_fold_lookup (tools : list ToolSpec) (m : gmap string ToolInfo) (n : string) :
  fold_left tool_map_step tools m !! n
  = match last (List.filter (declares n) tools) with
    | Some tool => Some (info_of tool)
    | None => m !! n
    end.
Proof.
  revert m. induction tools as [|tool tools IH]; intros m; [done|].
  cbn [fold_left List.filter]. rewrite IH.
  destruct (declares n tool) eqn:Hd.
  - apply declares_spec in Hd. rewrite last_cons.
    destruct (last _); [done|].
    unfold tool_map_step. rewrite Hd. apply lookup_insert_eq.
  - destruct (last _); [done|].
    unfold tool_map_step. destruct (declared_name tool) as [name|] eqn:Hn; [|done].
    apply lookup_insert_ne. intros ->.
    apply declares_spec in Hn. congruence.
Qed.

Lemma tool_map_fold_dom (tools : list ToolSpec) (m : gmap string ToolInfo) :
  dom (fold_left tool_map_step tools m) = dom m ∪ list_to_set (omap declared_name tools).
Proof.
  revert m. induction tools as [|tool tools IH]; intros m.
  - simpl. set_solver.
  - simpl. rewrite IH. unfold tool_map_step.
    destruct (declared_name tool) as [name|]; simpl; [rewrite dom_insert_L|];
      set_solver.
Qed.

Lemma build_tool_map_lookup (config : AgentConfig) (n : string) :
  _build_tool_map config !! n
  = info_of <$> last (List.filter (declares n) (default [] (cfg_tools config))).
Proof.
  rewrite build_tool_map_fold, tool_map_fold_lookup.
  by destruct (last _).
Qed.

Lemma build_tool_map_dom (config : AgentConfig) :
  dom (_build_tool_map config)
  = list_to_set (omap declared_name (default [] (cfg_tools config))).
Proof. rewrite build_tool_map_fold, tool_map_fold_dom. set_solver. Qed.

Lemma build_tool_map_size (config : AgentConfig) :
  size (_build_tool_map config)
  = length (remove_dups (omap declared_name (default [] (cfg_tools config)))).
Proof.
  rewrite <- size_dom, build_tool_map_dom.
  rewrite <- (size_list_to_set (C := gset string)) by apply NoDup_remove_dups.
  f_equal. apply set_eq. intros n.
  by rewrite !elem_of_list_to_set, elem_of_remove_dups.
Qed.

(** ** The monad *)

Lemma bind_ok {A B} (m : M A) (k : A → M B) t a t' :
  m t = (Ok a, t') → bind m k t = k a t'.
Proof. unfold bind. by intros ->. Qed.

Lemma bind_raise {A B} (m : M A) (k : A → M B) t e t' :
  m t = (Raise e, t') → bind m k t = (Raise e, t').
Proof. unfold bind. by intros ->. Qed.

Lemma try_except_ok {A} (m : M A) (h : exn → M A) t a t' :
  m t = (Ok a, t') → try_except m h t = (Ok a, t').
Proof. unfold try_except. by intros ->. Qed.

Lemma try_except_raise {A} (m : M A) (h : exn → M A) t e t' :
  m t = (Raise e, t') → try_except m h t = h e t'.
Proof. unfold try_except. by intros ->. Qed.

Ltac unfold_monad := unfold bind, try_except, call, emit, ret, raise in *.

(** ** Retrieval Bridge *)

Lemma scan_user_query_skip (skipped rest : list Message) :
  Forall (fun m => is_user m = false) skipped →
  scan_user_query (skipped ++ rest) = scan_user_query rest.
Proof.
  induction 1 as [|m l Hm _ IH]; [done|].
  simpl. fold (is_user m). by rewrite Hm.
Qed.

(** The scan from the end stops at the last user message. *)
Lemma scan_user_query_last (before after : list Message) (msg : Message) :
  is_user msg = true →
  Forall (fun m => is_user m = false) after →
  scan_user_query (rev (before ++ msg :: after)) = content_of msg.
Proof.
  intros Hmsg Hafter. rewrite rev_app_distr. cbn [rev]. rewrite <- app_assoc.
  rewrite scan_user_query_skip by by apply Forall_rev.
  simpl. fold (is_user msg). by rewrite Hmsg.
Qed.

Lemma scan_user_query_none (msgs : list Message) :
  Forall (fun m => is_user m = false) msgs →
  scan_user_query (rev msgs) = JStr EmptyString.
Proof.
  intros H. rewrite <- (app_nil_r (rev msgs)).
  by rewrite scan_user_query_skip by by apply Forall_rev.
Qed.

Lemma filter_nil_existsb {A} (p : A → bool) (l : list A) :
  List.filter p l = [] ↔ existsb p l = false.
Proof.
  induction l as [|x l IH]; [done|]. simpl.
  destruct (p x); simpl; [split; discriminate | exact IH].
Qed.

(** What [_retrieve_rag_knowledge] does, in one equation: it never raises,
    and calls the retriever at most once. *)
Lemma retrieve_rag_knowledge_eq ext self cfg ctx t :
  let query := scan_user_query (rev (input_messages ctx)) in
  let rag_config := default (JObj []) (cfg_rag_config cfg) in
  let agent_id := def_id (_definition self) in
  _retrieve_rag_knowledge ext self cfg ctx t
  = if existsb rag_indexed (default [] (cfg_knowledge cfg)) && truthy query then
      (match retrieve_for_agent ext t agent_id query rag_config with
       | Ok text => Ok text
       | Raise _ => Ok EmptyString
       end,
       t ++ [CallRetrieveForAgent agent_id query rag_config])
    else (Ok EmptyString, t).
Proof.
  intros query rag_config agent_id. unfold _retrieve_rag_knowledge.
  fold rag_indexed. fold query. fold rag_config. fold agent_id.
  destruct (List.filter rag_indexed _) as [|k ks] eqn:Hf.
  - apply filter_nil_existsb in Hf. by rewrite Hf.
  - destruct (existsb rag_indexed _) eqn:He.
    2:{ apply filter_nil_existsb in He. congruence. }
    simpl. destruct (truthy query); [|done]. simpl.
    unfold_monad. by destruct (retrieve_for_agent _ _ _ _ _).
Qed.

Lemma retrieve_rag_knowledge_total ext self cfg ctx t :
  ∃ text t', _retrieve_rag_knowledge ext self cfg ctx t = (Ok text, t').
Proof.
  rewrite retrieve_rag_knowledge_eq. cbv zeta.
  destruct (_ && _); [|by eauto].
  destruct (retrieve_for_agent _ _ _ _ _); by eauto.
Qed.

(** C5 (as amended).  The Retrieval Bridge returns the empty string and
    calls no retriever when no knowledge entry is in mode [rag] with status
    [indexed], when no message has role [user], and when the most recent
    user message has empty content.  Otherwise it calls the retriever once,
    with the agent's id, that message's content and [rag_config], and
    returns the retriever's text as it is, or the empty string when the
    retriever raises. *)
Theorem retrieval_bridge_behaviour ext self cfg ctx t :
  let entries := default [] (cfg_knowledge cfg) in
  let agent_id := def_id (_definition self) in
  let rag_config := default (JObj []) (cfg_rag_config cfg) in
  (Forall (fun k => rag_indexed k = false) entries →
   _retrieve_rag_knowledge ext self cfg ctx t = (Ok EmptyString, t))
  ∧ (Forall (fun m => is_user m = false) (input_messages ctx) →
     _retrieve_rag_knowledge ext self cfg ctx t = (Ok EmptyString, t))
  ∧ (∀ before msg after,
       input_messages ctx = before ++ msg :: after →
       is_user msg = true →
       Forall (fun m => is_user m = false) after →
       truthy (content_of msg) = false →
       _retrieve_rag_knowledge ext self cfg ctx t = (Ok EmptyString, t))
  ∧ (∀ before msg after,
       Exists (fun k => rag_indexed k = true) entries →
       input_messages ctx = before ++ msg :: after →
       is_user msg = true →
       Forall (fun m => is_user m = false) after →
       truthy (content_of msg) = true →
       _retrieve_rag_knowledge ext self cfg ctx t
       = (match retrieve_for_agent ext t agent_id (content_of msg) rag_config with
          | Ok text => Ok text
          | Raise _ => Ok EmptyString
          end,
          t ++ [CallRetrieveForAgent agent_id (content_of msg) rag_config])).
Proof.
  intros entries agent_id rag_config.
  rewrite retrieve_rag_knowledge_eq. cbv zeta.
  fold entries. fold agent_id. fold rag_config.
  repeat split.
  - intros Hnone. replace (existsb rag_indexed entries) with false; [done|].
    symmetry. apply not_true_iff_false. rewrite existsb_exists.
    intros (k & Hin & Hk). rewrite Forall_forall in Hnone.
    apply list_elem_of_In in Hin. specialize (Hnone k Hin). congruence.
  - intros Hnone. rewrite scan_user_query_none by done. by rewrite andb_false_r.
  - intros before msg after -> Hmsg Hafter Hcontent.
    rewrite scan_user_query_last by done. by rewrite Hcontent, andb_false_r.
  - intros before msg after Hsome -> Hmsg Hafter Hcontent.
    rewrite scan_user_query_last by done. rewrite Hcontent.
    replace (existsb rag_indexed entries) with true; [done|].
    symmetry. apply existsb_exists. apply Exists_exists in Hsome as (k & Hin & Hk).
    exists k. by rewrite <- list_elem_of_In.
Qed.


(** ** Memory Bridge *)

(** What [_get_memory_store] does, in one equation. *)
Lemma get_memory_store_eq ext ctx t :
  let user_id := dict_get (metadata ctx) "user_id" in
  let conv := conversation_id ctx in
  _get_memory_store ext ctx t
  = if truthy user_id && truthy conv then
      match User_objects_get ext t user_id with
      | Raise _ => (Ok None, t ++ [CallUserGet user_id])
      | Ok user =>
          (match new_ConversationMemoryStore ext (t ++ [CallUserGet user_id]) user conv with
           | Ok store => Ok (Some store)
           | Raise _ => Ok None
           end,
           (t ++ [CallUserGet user_id]) ++ [CallNewMemoryStore user conv])
      end
    else (Ok None, t).
Proof.
  intros user_id conv. unfold _get_memory_store. fold user_id. fold conv.
  destruct (truthy user_id), (truthy conv); simpl; try done.
  unfold_monad. destruct (User_objects_get _ _ _) as [user|e]; [|done].
  by destruct (new_ConversationMemoryStore _ _ _ _).
Qed.

Lemma get_memory_store_total ext ctx t :
  ∃ handle t', _get_memory_store ext ctx t = (Ok handle, t').
Proof.
  rewrite get_memory_store_eq. cbv zeta.
  destruct (_ && _); [|by eauto].
  destruct (User_objects_get _ _ _); [|by eauto].
  destruct (new_ConversationMemoryStore _ _ _ _); by eauto.
Qed.

Lemma recall_memories_total ext store t :
  ∃ text t', _recall_memories ext store t = (Ok text, t').
Proof.
  unfold _recall_memories. unfold_monad.
  destruct (recall_all _ _ _) as [[|m ms]|e]; [by eauto | | by eauto].
  destruct (format_for_prompt _ _ _ _); by eauto.
Qed.

Lemma memory_phase_total ext ctx enabled t :
  ∃ handle text t', memory_phase ext ctx enabled t handle text t'.
Proof.
  destruct enabled eqn:Hen.
  - destruct (get_memory_store_total ext ctx t) as ([store|] & t1 & Hget).
    + destruct (recall_memories_total ext store t1) as (text & t' & Hrec).
      exists (Some store), text, t'. by eapply memory_recalled.
    + exists None, EmptyString, t1. by apply memory_absent.
  - exists None, EmptyString, t. by apply memory_disabled.
Qed.

(** The phase is a function of where it starts. *)
Lemma memory_phase_det ext ctx enabled t h1 x1 t1 h2 x2 t2 :
  memory_phase ext ctx enabled t h1 x1 t1 →
  memory_phase ext ctx enabled t h2 x2 t2 →
  h1 = h2 ∧ x1 = x2 ∧ t1 = t2.
Proof.
  intros H1 H2. inversion H1; inversion H2; subst; try congruence;
    repeat match goal with
           | Ha : ?call = _, Hb : ?call = _ |- _ =>
               rewrite Ha in Hb; injection Hb as ?; subst
           end; done.
Qed.

(** ** Turn Orchestrator: [run] in two halves *)

Lemma run_unfold ext self ctx :
  run ext self ctx
  = (rag_context <- _retrieve_rag_knowledge ext self (config self) ctx ;;
     let system_prompt := assemble (base_prompt (config self))
                            [_build_knowledge_context (config self); rag_context] in
     memory <-
       (if memory_enabled_of (config self) then
          memory_store <- _get_memory_store ext ctx ;;
          match memory_store with
          | Some store =>
              memory_context <- _recall_memories ext store ;;
              ret (memory_store, append_layer system_prompt memory_context)
          | None => ret (memory_store, system_prompt)
          end
        else ret (None, system_prompt)) ;;
     finish_turn ext (config self) ctx (fst memory) (snd memory)).
Proof. reflexivity. Qed.

(** The first half always completes: the layers are computed and the second
    half starts from the prompt assembled from them. *)
Lemma run_prompt ext self ctx t :
  let cfg := config self in
  ∃ rag t1 handle memory t2,
    _retrieve_rag_knowledge ext self cfg ctx t = (Ok rag, t1)
    ∧ memory_phase ext ctx (memory_enabled_of cfg) t1 handle memory t2
    ∧ run ext self ctx t
      = finish_turn ext cfg ctx handle
          (assemble (base_prompt cfg) [_build_knowledge_context cfg; rag; memory]) t2.
Proof.
  intros cfg.
  destruct (retrieve_rag_knowledge_total ext self cfg ctx t) as (rag & t1 & Hrag).
  exists rag, t1. rewrite run_unfold. fold cfg.
  rewrite (bind_ok _ _ _ _ _ Hrag). cbv zeta.
  destruct (memory_enabled_of cfg) eqn:Hen.
  - destruct (get_memory_store_total ext ctx t1) as ([store|] & t1' & Hget).
    + destruct (recall_memories_total ext store t1') as (text & t2 & Hrec).
      exists (Some store), text, t2. split; [done|]. split.
      { by eapply memory_recalled. }
      erewrite bind_ok; cycle 1.
      { erewrite bind_ok by exact Hget. cbv beta iota.
        erewrite bind_ok by exact Hrec. reflexivity. }
      done.
    + exists None, EmptyString, t1'. split; [done|]. split.
      { by apply memory_absent. }
      erewrite bind_ok; cycle 1.
      { erewrite bind_ok by exact Hget. reflexivity. }
      done.
  - exists None, EmptyString, t1. split; [done|]. split.
    { by apply memory_disabled. }
    done.
Qed.

(** ** Tool Dispatcher *)

(** What [_execute_tool] does, in one equation: it never raises, and calls
    the executor at most once. *)
Lemma execute_tool_eq ext tool_name tool_args tool_map executor ctx t :
  let user_id := dict_get (metadata ctx) "user_id" in
  let tid := tool_map !! tool_name ≫= tool_id in
  _execute_tool ext tool_name tool_args tool_map executor ctx t
  = match tool_map !! tool_name ≫= function_path with
    | Some (String c p) =>
        (match executor_execute ext t (String c p) tool_args (run_id ctx) user_id tid with
         | Ok (PJson (JStr s)) => Ok s
         | Ok (PJson j) => Ok (json_dumps ext j)
         | Ok (PObject type_error) =>
             Ok (json_dumps ext (JObj [("error", JStr type_error)]))
         | Raise e => Ok (json_dumps ext (JObj [("error", JStr (str_of_exn e))]))
         end,
         t ++ [CallExecute (String c p) tool_args (run_id ctx) user_id tid])
    | _ =>
        (Ok (json_dumps ext (JObj [
           ("error",
            JStr ("Tool '" +:+ tool_name +:+ "' has no function_path configured"))])),
         t)
    end.
Proof.
  intros user_id tid. unfold _execute_tool. fold user_id. fold tid.
  destruct (tool_map !! tool_name ≫= function_path) as [[|c p]|]; try done.
  simpl. unfold_monad.
  destruct (executor_execute _ _ _ _ _ _ _) as [[[]|]|e]; done.
Qed.

Lemma execute_tool_total ext tool_name tool_args tool_map executor ctx t :
  ∃ text t', _execute_tool ext tool_name tool_args tool_map executor ctx t = (Ok text, t').
Proof.
  rewrite execute_tool_eq. cbv zeta.
  destruct (tool_map !! tool_name ≫= function_path) as [[|c p]|]; try by eauto.
  destruct (executor_execute _ _ _ _ _ _ _) as [[[]|]|e]; by eauto.
Qed.

(** C2. For a tool call whose name is not [remember], dispatch returns a
    text and never raises.  A name absent from the execution map, or
    present with no function path (or an empty one), gets the payload
    [{error: Tool 'name' has no function_path configured}] and the executor
    is not called; an exception of the executor comes back as the payload
    [{error: str(e)}]. *)
Theorem tool_dispatch_never_raises ext ctx tool_map executor handle tool_name tool_args t :
  tool_name ≠ "remember" →
  let dispatch := execute_tool ext ctx tool_map executor handle tool_name tool_args in
  let user_id := dict_get (metadata ctx) "user_id" in
  let tid := tool_map !! tool_name ≫= tool_id in
  (∃ text t', dispatch t = (Ok text, t'))
  ∧ (tool_map !! tool_name = None
     ∨ (∃ info, tool_map !! tool_name = Some info
                ∧ (function_path info = None ∨ function_path info = Some EmptyString)) →
     dispatch t
     = (Ok (json_dumps ext (JObj [
          ("error",
           JStr ("Tool '" +:+ tool_name +:+ "' has no function_path configured"))])),
        t))
  ∧ (∀ info path e,
       tool_map !! tool_name = Some info →
       function_path info = Some path →
       path ≠ EmptyString →
       executor_execute ext t path tool_args (run_id ctx) user_id tid = Raise e →
       dispatch t
       = (Ok (json_dumps ext (JObj [("error", JStr (str_of_exn e))])),
          t ++ [CallExecute path tool_args (run_id ctx) user_id tid])).
Proof.
  intros Hname dispatch user_id tid. subst dispatch. unfold execute_tool.
  apply String.eqb_neq in Hname. rewrite Hname.
  split; [apply execute_tool_total|]. split.
  - intros Hno. rewrite execute_tool_eq. cbv zeta.
    destruct Hno as [-> | (info & -> & [Hp | Hp])]; simpl; [done | |]; by rewrite Hp.
  - intros info path e Hinfo Hpath Hne Hexec.
    rewrite execute_tool_eq. cbv zeta. fold user_id. fold tid.
    rewrite Hinfo. simpl. rewrite Hpath.
    destruct path as [|c p]; [done|]. by rewrite Hexec.
Qed.

(** ** The remember tool *)


Lemma str_truthy_false s : str_truthy s = false ↔ s = EmptyString.
Proof. by destruct s. Qed.

Lemma str_truthy_true s : str_truthy s = true ↔ s ≠ EmptyString.
Proof. by destruct s. Qed.


(** C4. A call named [remember] goes to the built-in handler whatever the
    execution map holds: the result is that of [_execute_remember_tool],
    the same for any two maps, and the tool executor is not called.  With
    no memory handle the result is the memory-not-available payload with
    its hint. *)
Theorem remember_dispatch ext ctx executor handle tool_args t :
  (∀ tool_map,
     execute_tool ext ctx tool_map executor handle "remember" tool_args t
     = _execute_remember_tool ext tool_args handle t)
  ∧ (∀ tool_map,
       ∃ new,
         (execute_tool ext ctx tool_map executor handle "remember" tool_args t).2 = t ++ new
         ∧ Forall (fun ev => is_execute_call ev = false) new)
  ∧ (∀ tool_map,
       handle = None →
       execute_tool ext ctx tool_map executor handle "remember" tool_args t
       = (Ok (json_dumps ext (JObj [
            ("error", JStr "Memory not available for this conversation");
            ("hint", JStr "Memory requires a logged-in user and conversation context")])),
          t)).
Proof.
  split; [done|]. split.
  - intros tool_map. change (execute_tool _ _ _ _ _ "remember" tool_args t)
      with (_execute_remember_tool ext tool_args handle t).
    unfold _execute_remember_tool.
    destruct handle as [store|]; [|exists []; by rewrite app_nil_r].
    unfold py_strip.
    destruct (dict_get_default tool_args "key" _);
      try (exists []; by rewrite app_nil_r).
    destruct (dict_get_default tool_args "value" _);
      try (exists []; by rewrite app_nil_r).
    unfold bind at 1. unfold ret at 1. unfold bind at 1. unfold ret at 1.
    destruct (str_truthy (strip s)); simpl; [|exists []; by rewrite app_nil_r].
    destruct (str_truthy (strip s0)); simpl; [|exists []; by rewrite app_nil_r].
    unfold_monad.
    destruct (remember _ _ _ _ _ _); eexists; (split; [reflexivity|]);
      by repeat constructor.
  - by intros tool_map ->.
Qed.

(** ** The loop and the events *)

Lemma emitted_app t t' : emitted (t ++ t') = emitted t ++ emitted t'.
Proof. unfold emitted. apply omap_app. Qed.

Lemma emitted_tool_calls (new : list event) :
  Forall (fun ev => is_tool_call ev = true) new → emitted new = [].
Proof.
  induction 1 as [|ev new Hev _ IH]; [done|].
  destruct ev; done.
Qed.

(** A dispatched call adds only tool calls to the trace. *)
Lemma dispatch_trace ext ctx tool_map executor handle tool_name tool_args t :
  ∃ new,
    (execute_tool ext ctx tool_map executor handle tool_name tool_args t).2 = t ++ new
    ∧ Forall (fun ev => is_tool_call ev = true) new.
Proof.
  unfold execute_tool. destruct (String.eqb tool_name "remember").
  - unfold _execute_remember_tool.
    destruct handle as [store|]; [|exists []; by rewrite app_nil_r].
    unfold py_strip.
    destruct (dict_get_default tool_args "key" _);
      try (exists []; by rewrite app_nil_r).
    destruct (dict_get_default tool_args "value" _);
      try (exists []; by rewrite app_nil_r).
    unfold bind at 1. unfold ret at 1. unfold bind at 1. unfold ret at 1.
    destruct (str_truthy (strip s)); simpl; [|exists []; by rewrite app_nil_r].
    destruct (str_truthy (strip s0)); simpl; [|exists []; by rewrite app_nil_r].
    unfold_monad.
    destruct (remember _ _ _ _ _ _); eexists; (split; [reflexivity|]);
      by repeat constructor.
  - rewrite execute_tool_eq. cbv zeta.
    destruct (tool_map !! tool_name ≫= function_path) as [[|c p]|];
      try (exists []; by rewrite app_nil_r).
    eexists; (split; [reflexivity|]); by repeat constructor.
Qed.

(** Driving the loop adds only what the callback adds. *)
Lemma drive_trace (callback : string → gmap string json → M string)
    (P : event → Prop) (b : loop_behaviour) :
  (∀ n a t, ∃ new, (callback n a t).2 = t ++ new ∧ Forall P new) →
  ∀ t, ∃ new, (drive callback b t).2 = t ++ new ∧ Forall P new.
Proof.
  intros Hcb. induction b as [result|e|n a k IH]; intros t.
  - exists []. by rewrite app_nil_r.
  - exists []. by rewrite app_nil_r.
  - cbn [drive]. destruct (Hcb n a t) as (new1 & H1 & HP1).
    destruct (callback n a t) as [answer t1] eqn:Hc. simpl in H1. subst t1.
    destruct (IH answer (t ++ new1)) as (new2 & H2 & HP2).
    exists (new1 ++ new2). rewrite H2, app_assoc. split; [done|].
    by apply Forall_app.
Qed.

Lemma drive_emitted ext ctx tool_map executor handle b t :
  emitted (drive (execute_tool ext ctx tool_map executor handle) b t).2 = emitted t.
Proof.
  destruct (drive_trace (execute_tool ext ctx tool_map executor handle)
              (fun ev => is_tool_call ev = true) b
              (dispatch_trace ext ctx tool_map executor handle) t)
    as (new & -> & Hnew).
  by rewrite emitted_app, (emitted_tool_calls _ Hnew), app_nil_r.
Qed.

(** The second half of [run], case by case. *)
Lemma finish_turn_eq ext cfg ctx handle prompt t :
  let model := model_of ext cfg ctx in
  let t1 := t ++ [CallGetLLMClient model] in
  finish_turn ext cfg ctx handle prompt t
  = match get_llm_client_for_model ext t model with
    | Raise e => (Raise e, t1)
    | Ok llm =>
        match repeated_keyword (settings_of cfg) with
        | Some keyword =>
            (Raise (multiple_values ext keyword),
             t1 ++ [Emit RUN_FAILED (failure_of (multiple_values ext keyword))])
        | None =>
            let args := loop_args ext cfg ctx llm prompt in
            match drive (execute_tool ext ctx (_build_tool_map cfg)
                           NewDynamicToolExecutor handle)
                    (run_agentic_loop ext t1 args) (t1 ++ [CallRunAgenticLoop args]) with
            | (Ok result, t2) =>
                (Ok {| final_output :=
                         JObj [("response", opt_str_json (final_content result))];
                       final_messages := loop_messages result |},
                 t2 ++ (if opt_str_truthy (final_content result)
                        then [Emit ASSISTANT_MESSAGE
                                (JObj [("content", opt_str_json (final_content result))])]
                        else []))
            | (Raise e, t2) => (Raise e, t2 ++ [Emit RUN_FAILED (failure_of e)])
            end
        end
    end.
Proof.
  intros model t1. unfold finish_turn. fold model.
  unfold bind at 1. unfold call at 1. fold t1.
  destruct (get_llm_client_for_model ext t model) as [llm|e]; [|done].
  cbv zeta. destruct (repeated_keyword (settings_of cfg)) as [keyword|]; [done|].
  unfold try_except, bind, call_run_agentic_loop.
  destruct (drive _ _ _) as [[result|e] t2]; [|done].
  destruct (opt_str_truthy (final_content result)); [done|].
  unfold ret. by rewrite app_nil_r.
Qed.

(** A model setting that repeats a keyword of the call: the call is
    refused, the failure is reported and raised, the loop is not entered. *)
Lemma finish_turn_refused ext cfg ctx handle prompt t llm keyword :
  get_llm_client_for_model ext t (model_of ext cfg ctx) = Ok llm →
  repeated_keyword (settings_of cfg) = Some keyword →
  finish_turn ext cfg ctx handle prompt t
  = (Raise (multiple_values ext keyword),
     t ++ [CallGetLLMClient (model_of ext cfg ctx);
           Emit RUN_FAILED (failure_of (multiple_values ext keyword))]).
Proof.
  intros Hllm Hkey. rewrite finish_turn_eq. cbv zeta. rewrite Hllm, Hkey.
  by rewrite <- app_assoc.
Qed.

Lemma finish_turn_loop_called ext self ctx t t2 handle prompt llm :
  run ext self ctx t = finish_turn ext (config self) ctx handle prompt t2 →
  get_llm_client_for_model ext t2 (model_of ext (config self) ctx) = Ok llm →
  repeated_keyword (settings_of (config self)) = None →
  loop_called ext self ctx t t2 (loop_args ext (config self) ctx llm prompt).
Proof.
  intros Hrun Hllm Hkey. unfold loop_called. rewrite Hrun, finish_turn_eq. cbv zeta.
  rewrite Hllm, Hkey.
  set (args := loop_args _ _ _ _ _).
  set (t1 := t2 ++ [CallGetLLMClient _]).
  destruct (drive_trace _ _ (run_agentic_loop ext t1 args)
              (dispatch_trace ext ctx (_build_tool_map (config self))
                 NewDynamicToolExecutor handle) (t1 ++ [CallRunAgenticLoop args]))
    as (new & Hnew & _).
  destruct (drive _ _ _) as [[result|e] t3]; simpl in Hnew; subst t3; subst t1;
    eexists; simpl; rewrite <- !app_assoc; simpl; reflexivity.
Qed.

(** ** Turn Orchestrator *)

Lemma run_from_phase ext self ctx t rag t1 handle memory t2 :
  let cfg := config self in
  _retrieve_rag_knowledge ext self cfg ctx t = (Ok rag, t1) →
  memory_phase ext ctx (memory_enabled_of cfg) t1 handle memory t2 →
  run ext self ctx t
  = finish_turn ext cfg ctx handle
      (assemble (base_prompt cfg) [_build_knowledge_context cfg; rag; memory]) t2.
Proof.
  intros cfg Hrag Hphase.
  destruct (run_prompt ext self ctx t) as (rag' & t1' & handle' & memory' & t2' & Hrag' & Hphase' & ->).
  fold cfg in Hrag'. rewrite Hrag in Hrag'. injection Hrag' as <- <-.
  by destruct (memory_phase_det _ _ _ _ _ _ _ _ _ _ Hphase Hphase') as (<- & <- & <-).
Qed.

(** ** Traces of the parts of a turn *)

Lemma retrieve_rag_trace ext self cfg ctx t r t1 :
  _retrieve_rag_knowledge ext self cfg ctx t = (r, t1) →
  ∃ calls, t1 = t ++ calls
           ∧ Forall (fun ev => is_retrieve_call ev = true) calls
           ∧ length calls ≤ 1.
Proof.
  rewrite retrieve_rag_knowledge_eq. cbv zeta.
  destruct (_ && _); intros [= _ <-].
  - eexists. split; [done|]. split; [by repeat constructor | simpl; lia].
  - exists []. rewrite app_nil_r. split; [done|]. split; [done | simpl; lia].
Qed.

Lemma get_memory_store_trace ext ctx t r t1 :
  _get_memory_store ext ctx t = (r, t1) →
  ∃ calls, t1 = t ++ calls
           ∧ Forall (fun ev => is_memory_call ev = true ∧ is_remember_call ev = false) calls.
Proof.
  rewrite get_memory_store_eq. cbv zeta.
  destruct (_ && _).
  - destruct (User_objects_get _ _ _); intros [= _ <-]; rewrite <- ?app_assoc;
      eexists; (split; [done|]); by repeat constructor.
  - intros [= _ <-]. exists []. by rewrite app_nil_r.
Qed.

Lemma recall_memories_trace ext store t r t1 :
  _recall_memories ext store t = (r, t1) →
  ∃ calls, t1 = t ++ calls
           ∧ Forall (fun ev => is_memory_call ev = true ∧ is_remember_call ev = false) calls.
Proof.
  unfold _recall_memories. unfold_monad.
  destruct (recall_all _ _ _) as [[|m ms]|e].
  - intros [= _ <-]. eexists. split; [done|]. by repeat constructor.
  - destruct (format_for_prompt _ _ _ _); intros [= _ <-]; rewrite <- ?app_assoc;
      eexists; (split; [done|]); by repeat constructor.
  - intros [= _ <-]. eexists. split; [done|]. by repeat constructor.
Qed.

Lemma memory_phase_trace ext ctx enabled t handle memory t2 :
  memory_phase ext ctx enabled t handle memory t2 →
  ∃ calls, t2 = t ++ calls
           ∧ Forall (fun ev => is_memory_call ev = true ∧ is_remember_call ev = false) calls
           ∧ (enabled = false → calls = [] ∧ handle = None).
Proof.
  intros [Hen | t' Hen Hget | store t1 text t' Hen Hget Hrec].
  - exists []. by rewrite app_nil_r.
  - apply get_memory_store_trace in Hget as (calls & -> & Hcalls).
    exists calls. split; [done|]. split; [done|]. congruence.
  - apply get_memory_store_trace in Hget as (calls1 & -> & Hcalls1).
    apply recall_memories_trace in Hrec as (calls2 & -> & Hcalls2).
    exists (calls1 ++ calls2). rewrite app_assoc. split; [done|].
    split; [by apply Forall_app | congruence].
Qed.

(** A dispatched call adds at most the one call its tool stands for. *)
Lemma dispatch_ok ext ctx tool_map executor handle tool_name tool_args t :
  ∃ new,
    (execute_tool ext ctx tool_map executor handle tool_name tool_args t).2 = t ++ new
    ∧ Forall (tool_call_ok ctx tool_map handle) new.
Proof.
  unfold execute_tool. destruct (String.eqb tool_name "remember") eqn:Hname.
  - unfold _execute_remember_tool.
    destruct handle as [store|]; [|exists []; by rewrite app_nil_r].
    unfold py_strip.
    destruct (dict_get_default tool_args "key" _);
      try (exists []; by rewrite app_nil_r).
    destruct (dict_get_default tool_args "value" _);
      try (exists []; by rewrite app_nil_r).
    unfold bind at 1. unfold ret at 1. unfold bind at 1. unfold ret at 1.
    destruct (str_truthy (strip s)) eqn:Hk; simpl; [|exists []; by rewrite app_nil_r].
    destruct (str_truthy (strip s0)) eqn:Hv; simpl; [|exists []; by rewrite app_nil_r].
    apply str_truthy_true in Hk, Hv.
    unfold_monad.
    destruct (remember _ _ _ _ _ _); eexists; (split; [reflexivity|]);
      by repeat constructor.
  - rewrite execute_tool_eq. cbv zeta.
    destruct (tool_map !! tool_name) as [info|] eqn:Hinfo; simpl;
      [|exists []; by rewrite app_nil_r].
    destruct (function_path info) as [[|c p]|] eqn:Hpath;
      try (exists []; by rewrite app_nil_r).
    eexists. split; [reflexivity|]. constructor; [|done].
    exists tool_name, info. apply String.eqb_neq in Hname. by repeat split.
Qed.

(** The whole trace of a turn: the retrieval and memory steps, the lookup
    of the LLM client and, when there is one, either the failure of a call
    that repeats a keyword, or the loop with the calls made for its tool
    requests and the final event. *)
Lemma run_trace ext self ctx t :
  let cfg := config self in
  let model := model_of ext cfg ctx in
  ∃ rag rag_calls handle memory memory_calls tail,
    let t2 := t ++ rag_calls ++ memory_calls in
    let prompt := assemble (base_prompt cfg) [_build_knowledge_context cfg; rag; memory] in
    _retrieve_rag_knowledge ext self cfg ctx t = (Ok rag, t ++ rag_calls)
    ∧ memory_phase ext ctx (memory_enabled_of cfg) (t ++ rag_calls) handle memory t2
    ∧ Forall (fun ev => is_retrieve_call ev = true) rag_calls
    ∧ length rag_calls ≤ 1
    ∧ Forall (fun ev => is_memory_call ev = true ∧ is_remember_call ev = false)
        memory_calls
    ∧ (memory_enabled_of cfg = false → memory_calls = [] ∧ handle = None)
    ∧ (run ext self ctx t).2 = t2 ++ CallGetLLMClient model :: tail
    ∧ match get_llm_client_for_model ext t2 model with
      | Raise e => tail = [] ∧ (run ext self ctx t).1 = Raise e
      | Ok llm =>
          match repeated_keyword (settings_of cfg) with
          | Some keyword =>
              tail = [Emit RUN_FAILED (failure_of (multiple_values ext keyword))]
              ∧ (run ext self ctx t).1 = Raise (multiple_values ext keyword)
          | None =>
              ∃ calls final,
                tail = CallRunAgenticLoop (loop_args ext cfg ctx llm prompt)
                         :: calls ++ final
                ∧ Forall (tool_call_ok ctx (_build_tool_map cfg) handle) calls
                ∧ (final = [] ∨ ∃ ty payload, final = [Emit ty payload])
          end
      end.
Proof.
  intros cfg model.
  destruct (run_prompt ext self ctx t)
    as (rag & t1 & handle & memory & t2 & Hrag & Hphase & Hrun).
  fold cfg in Hrag, Hphase, Hrun.
  destruct (retrieve_rag_trace _ _ _ _ _ _ _ Hrag) as (rag_calls & -> & Hrc & Hlen).
  destruct (memory_phase_trace _ _ _ _ _ _ _ Hphase) as (memory_calls & -> & Hmc & Hoff).
  rewrite <- app_assoc in Hrun, Hphase.
  set (t2 := t ++ rag_calls ++ memory_calls) in *.
  set (prompt := assemble _ _) in Hrun.
  assert (∃ tail,
            (run ext self ctx t).2 = t2 ++ CallGetLLMClient model :: tail
            ∧ match get_llm_client_for_model ext t2 model with
              | Raise e => tail = [] ∧ (run ext self ctx t).1 = Raise e
              | Ok llm =>
                  match repeated_keyword (settings_of cfg) with
                  | Some keyword =>
                      tail = [Emit RUN_FAILED (failure_of (multiple_values ext keyword))]
                      ∧ (run ext self ctx t).1 = Raise (multiple_values ext keyword)
                  | None =>
                      ∃ calls final,
                        tail = CallRunAgenticLoop (loop_args ext cfg ctx llm prompt)
                                 :: calls ++ final
                        ∧ Forall (tool_call_ok ctx (_build_tool_map cfg) handle) calls
                        ∧ (final = [] ∨ ∃ ty payload, final = [Emit ty payload])
                  end
              end) as (tail & Htrace & Htail).
  { rewrite Hrun, finish_turn_eq. cbv zeta. fold model.
    destruct (get_llm_client_for_model ext t2 model) as [llm|e]; [|by exists []].
    destruct (repeated_keyword (settings_of cfg)) as [keyword|].
    { eexists. split; [simpl; rewrite <- app_assoc; reflexivity|done]. }
    set (args := loop_args _ _ _ _ _).
    destruct (drive_trace _ _ (run_agentic_loop ext (t2 ++ [CallGetLLMClient model]) args)
                (dispatch_ok ext ctx (_build_tool_map cfg) NewDynamicToolExecutor handle)
                ((t2 ++ [CallGetLLMClient model]) ++ [CallRunAgenticLoop args]))
      as (calls & Hcalls & Hok).
    destruct (drive _ _ _) as [[result|e] t3]; simpl in Hcalls; subst t3; simpl.
    - eexists. split; [rewrite <- !app_assoc; simpl; reflexivity|].
      exists calls. eexists. split; [reflexivity|]. split; [done|].
      destruct (opt_str_truthy _); [right; by eexists _, _ | by left].
    - eexists. split; [rewrite <- !app_assoc; simpl; reflexivity|].
      exists calls. eexists. split; [reflexivity|]. split; [done|].
      right; by eexists _, _. }
  exists rag, rag_calls, handle, memory, memory_calls, tail. cbv zeta.
  by repeat (split; [done|]).
Qed.

(** ** The events of a turn, by kind *)

Lemma count_app kind (l1 l2 : list event) :
  count kind (l1 ++ l2) = count kind l1 + count kind l2.
Proof. unfold count. by rewrite List.filter_app, length_app. Qed.

Lemma count_none kind (l : list event) :
  Forall (fun ev => kind ev = false) l → count kind l = 0.
Proof.
  unfold count. induction 1 as [|ev l Hev _ IH]; [done|]. simpl. by rewrite Hev.
Qed.

Lemma count_le_length kind (l : list event) : count kind l ≤ length l.
Proof. apply filter_length_le. Qed.

Lemma retrieve_call_kinds ev :
  is_retrieve_call ev = true →
  is_tool_call ev = false ∧ is_memory_call ev = false ∧ is_llm_lookup ev = false
  ∧ is_loop_call ev = false ∧ is_emit ev = false.
Proof. by destruct ev. Qed.

Lemma memory_call_kinds ev :
  is_memory_call ev = true ∧ is_remember_call ev = false →
  is_tool_call ev = false ∧ is_retrieve_call ev = false ∧ is_llm_lookup ev = false
  ∧ is_loop_call ev = false ∧ is_emit ev = false.
Proof. destruct ev; naive_solver. Qed.

Lemma tool_call_kinds ctx tool_map handle ev :
  tool_call_ok ctx tool_map handle ev →
  is_tool_call ev = true ∧ is_retrieve_call ev = false ∧ is_llm_lookup ev = false
  ∧ is_loop_call ev = false ∧ is_emit ev = false
  ∧ (handle = None → is_memory_call ev = false).
Proof. destruct ev; simpl; naive_solver. Qed.

Lemma count_zero kind (l : list event) :
  (∀ ev, ev ∈ l → kind ev = false) → count kind l = 0.
Proof. intros H. apply count_none. by apply Forall_forall. Qed.

(** What a turn adds to the trace, entry by entry. *)
Lemma turn_events_classified ext self ctx t :
  let cfg := config self in
  ∃ rag t1 handle memory t2 new,
    _retrieve_rag_knowledge ext self cfg ctx t = (Ok rag, t1)
    ∧ memory_phase ext ctx (memory_enabled_of cfg) t1 handle memory t2
    ∧ (run ext self ctx t).2 = t ++ new
    ∧ (∀ ev, ev ∈ new → is_tool_call ev = true →
             tool_call_ok ctx (_build_tool_map cfg) handle ev)
    ∧ (∀ args, CallRunAgenticLoop args ∈ new →
               ∃ llm before,
                 get_llm_client_for_model ext before (model_of ext cfg ctx) = Ok llm
                 ∧ repeated_keyword (settings_of cfg) = None
                 ∧ args = loop_args ext cfg ctx llm
                            (assemble (base_prompt cfg)
                               [_build_knowledge_context cfg; rag; memory]))
    ∧ (∀ m, CallGetLLMClient m ∈ new → m = model_of ext cfg ctx)
    ∧ (memory_enabled_of cfg = false →
       handle = None ∧ memory = EmptyString
       ∧ Forall (fun ev => is_memory_call ev = false) new)
    ∧ (∀ keyword,
         repeated_keyword (settings_of cfg) = Some keyword →
         ∃ e, (run ext self ctx t).1 = Raise e
              ∧ (e = multiple_values ext keyword
                 ∨ get_llm_client_for_model ext t2 (model_of ext cfg ctx) = Raise e))
    ∧ (∀ llm,
         get_llm_client_for_model ext t2 (model_of ext cfg ctx) = Ok llm →
         match repeated_keyword (settings_of cfg) with
         | None =>
             loop_called ext self ctx t t2
               (loop_args ext cfg ctx llm
                  (assemble (base_prompt cfg) [_build_knowledge_context cfg; rag; memory]))
         | Some keyword =>
             run ext self ctx t
             = (Raise (multiple_values ext keyword),
                t2 ++ [CallGetLLMClient (model_of ext cfg ctx);
                       Emit RUN_FAILED (failure_of (multiple_values ext keyword))])
         end)
    ∧ count is_llm_lookup new = 1
    ∧ count is_retrieve_call new ≤ 1
    ∧ count is_loop_call new ≤ 1
    ∧ count is_emit new ≤ 1.
Proof.
  intros cfg.
  destruct (run_trace ext self ctx t)
    as (rag & rag_calls & handle & memory & memory_calls & tail
        & Hrag & Hphase & Hrc & Hlen & Hmc & Hoff & Htrace & Htail).
  fold cfg in Hrag, Hphase, Hoff, Htrace, Htail.
  rewrite app_assoc in Hphase.
  pose proof (run_from_phase ext self ctx t _ _ _ _ _ Hrag Hphase) as Hrun.
  fold cfg in Hrun.
  assert (Hreach : ∀ llm,
            get_llm_client_for_model ext ((t ++ rag_calls) ++ memory_calls)
              (model_of ext cfg ctx) = Ok llm →
            match repeated_keyword (settings_of cfg) with
            | None =>
                loop_called ext self ctx t ((t ++ rag_calls) ++ memory_calls)
                  (loop_args ext cfg ctx llm
                     (assemble (base_prompt cfg)
                        [_build_knowledge_context cfg; rag; memory]))
            | Some keyword =>
                run ext self ctx t
                = (Raise (multiple_values ext keyword),
                   ((t ++ rag_calls) ++ memory_calls)
                   ++ [CallGetLLMClient (model_of ext cfg ctx);
                       Emit RUN_FAILED (failure_of (multiple_values ext keyword))])
            end).
  { intros llm Hllm.
    destruct (repeated_keyword (settings_of cfg)) as [keyword|] eqn:Hkey.
    - rewrite Hrun. by eapply finish_turn_refused.
    - by eapply finish_turn_loop_called. }
  clear Hrun. rewrite <- app_assoc in Hphase, Hreach.
  set (model := model_of ext cfg ctx) in *.
  set (prompt := assemble (base_prompt cfg) [_build_knowledge_context cfg; rag; memory])
    in *.
  set (t2 := t ++ rag_calls ++ memory_calls) in *.
  exists rag, (t ++ rag_calls), handle, memory, t2,
    (rag_calls ++ memory_calls ++ CallGetLLMClient model :: tail).
  assert (Hshape : ∃ loop calls final,
             tail = loop ++ calls ++ final
             ∧ (loop = []
                ∨ ∃ llm, get_llm_client_for_model ext t2 model = Ok llm
                         ∧ repeated_keyword (settings_of cfg) = None
                         ∧ loop = [CallRunAgenticLoop (loop_args ext cfg ctx llm prompt)])
             ∧ (∀ ev, ev ∈ calls → tool_call_ok ctx (_build_tool_map cfg) handle ev)
             ∧ (final = [] ∨ ∃ ty payload, final = [Emit ty payload])).
  { destruct (get_llm_client_for_model ext t2 model) as [llm|e] eqn:Hget.
    2:{ destruct Htail as [-> _]. exists [], [], []. split; [done|].
        split; [by left|]. split; [|by left]. intros ev Hin. by apply elem_of_nil in Hin. }
    destruct (repeated_keyword (settings_of cfg)) as [keyword|] eqn:Hkey.
    - destruct Htail as [-> _]. exists [], [], [Emit RUN_FAILED (failure_of (multiple_values ext keyword))].
      split; [done|]. split; [by left|]. split; [|right; by eexists _, _].
      intros ev Hin. by apply elem_of_nil in Hin.
    - destruct Htail as (calls & final & -> & Hcalls & Hfinal).
      exists [CallRunAgenticLoop (loop_args ext cfg ctx llm prompt)], calls, final.
      split; [done|]. split; [right; by exists llm|]. split; [|done].
      by apply Forall_forall. }
  assert (Hfailed : ∀ keyword,
            repeated_keyword (settings_of cfg) = Some keyword →
            ∃ e, (run ext self ctx t).1 = Raise e
                 ∧ (e = multiple_values ext keyword
                    ∨ get_llm_client_for_model ext t2 model = Raise e)).
  { intros keyword Hkey.
    destruct (get_llm_client_for_model ext t2 model) as [llm|e].
    - rewrite Hkey in Htail. destruct Htail as [_ Hres]. eexists. split; [done|by left].
    - destruct Htail as [_ Hres]. exists e. split; [done|by right]. }
  clear Htail.
  destruct Hshape as (loop & calls & final & -> & Hloop & Hcalls & Hfinal).
  assert (Hr : ∀ ev, ev ∈ rag_calls →
                 is_tool_call ev = false ∧ is_memory_call ev = false
                 ∧ is_llm_lookup ev = false ∧ is_loop_call ev = false
                 ∧ is_emit ev = false).
  { intros ev Hin. apply retrieve_call_kinds. revert ev Hin. by apply Forall_forall. }
  assert (Hm : ∀ ev, ev ∈ memory_calls →
                 is_tool_call ev = false ∧ is_retrieve_call ev = false
                 ∧ is_llm_lookup ev = false ∧ is_loop_call ev = false
                 ∧ is_emit ev = false).
  { intros ev Hin. apply memory_call_kinds. revert ev Hin. by apply Forall_forall. }
  assert (Hc : ∀ ev, ev ∈ calls →
                 is_tool_call ev = true ∧ is_retrieve_call ev = false
                 ∧ is_llm_lookup ev = false ∧ is_loop_call ev = false
                 ∧ is_emit ev = false ∧ (handle = None → is_memory_call ev = false)).
  { intros ev Hin. eapply tool_call_kinds. by apply Hcalls. }
  assert (Hl : ∀ ev, ev ∈ loop →
                 ∃ llm, get_llm_client_for_model ext t2 model = Ok llm
                        ∧ repeated_keyword (settings_of cfg) = None
                        ∧ ev = CallRunAgenticLoop (loop_args ext cfg ctx llm prompt)).
  { intros ev Hin. destruct Hloop as [-> | (llm & Hget & Hkey & ->)];
      [by apply elem_of_nil in Hin|].
    apply list_elem_of_singleton in Hin. by exists llm. }
  assert (Hf : ∀ ev, ev ∈ final → ∃ ty payload, ev = Emit ty payload).
  { intros ev Hin. destruct Hfinal as [-> | (ty & payload & ->)];
      [by apply elem_of_nil in Hin|].
    apply list_elem_of_singleton in Hin. by exists ty, payload. }
  assert (Hlen_loop : length loop ≤ 1).
  { destruct Hloop as [-> | (llm & _ & _ & ->)]; simpl; lia. }
  assert (Hlen_final : length final ≤ 1).
  { destruct Hfinal as [-> | (ty & payload & ->)]; simpl; lia. }
  assert (Hmemory : memory_enabled_of cfg = false → memory = EmptyString).
  { intros Hen. inversion Hphase; subst; congruence. }
  assert (Hsplit : ∀ ev,
            ev ∈ rag_calls ++ memory_calls ++ CallGetLLMClient model :: loop ++ calls ++ final →
            ev ∈ rag_calls ∨ ev ∈ memory_calls ∨ ev = CallGetLLMClient model
            ∨ ev ∈ loop ∨ ev ∈ calls ∨ ev ∈ final).
  { intros ev. rewrite !elem_of_app, elem_of_cons, !elem_of_app. tauto. }
  split; [done|]. split; [done|].
  split; [rewrite Htrace; unfold t2; by rewrite <- !app_assoc|].
  split.
  { intros ev Hin Htool.
    destruct (Hsplit ev Hin) as [H | [H | [-> | [H | [H | H]]]]].
    - apply Hr in H as (Hk & _). congruence.
    - apply Hm in H as (Hk & _). congruence.
    - done.
    - apply Hl in H as (llm & _ & _ & ->). done.
    - by apply Hcalls.
    - apply Hf in H as (ty & payload & ->). done. }
  split.
  { intros args Hin.
    destruct (Hsplit _ Hin) as [H | [H | [H | [H | [H | H]]]]].
    - apply Hr in H as (_ & _ & _ & Hk & _). done.
    - apply Hm in H as (_ & _ & _ & Hk & _). done.
    - done.
    - apply Hl in H as (llm & Hget & Hkey & [= ->]). by exists llm, t2.
    - apply Hc in H as (_ & _ & _ & Hk & _). done.
    - apply Hf in H as (ty & payload & [=]). }
  split.
  { intros m Hin.
    destruct (Hsplit _ Hin) as [H | [H | [H | [H | [H | H]]]]].
    - apply Hr in H as (_ & _ & Hk & _). done.
    - apply Hm in H as (_ & _ & Hk & _). done.
    - by injection H.
    - apply Hl in H as (llm & _ & _ & [=]).
    - apply Hc in H as (_ & _ & Hk & _). done.
    - apply Hf in H as (ty & payload & [=]). }
  split.
  { intros Hen. destruct (Hoff Hen) as [-> ->].
    split; [done|]. split; [by apply Hmemory|].
    apply Forall_forall. intros ev Hin.
    destruct (Hsplit _ Hin) as [H | [H | [-> | [H | [H | H]]]]].
    - by apply Hr in H as (_ & Hk & _).
    - by apply elem_of_nil in H.
    - done.
    - apply Hl in H as (llm & _ & _ & ->). done.
    - apply Hc in H as (_ & _ & _ & _ & _ & Hk). by apply Hk.
    - apply Hf in H as (ty & payload & ->). done. }
  split; [done|]. split; [done|].
  change (CallGetLLMClient model :: loop ++ calls ++ final)
    with ([CallGetLLMClient model] ++ loop ++ calls ++ final).
  pose proof (count_le_length is_retrieve_call rag_calls) as Hle_r.
  pose proof (count_le_length is_loop_call loop) as Hle_l.
  pose proof (count_le_length is_emit final) as Hle_f.
  split; [|split; [|split]]; rewrite !count_app.
  - rewrite (count_zero is_llm_lookup rag_calls), (count_zero is_llm_lookup memory_calls),
      (count_zero is_llm_lookup loop), (count_zero is_llm_lookup calls),
      (count_zero is_llm_lookup final); [done| | | | |].
    + intros ev H. apply Hf in H as (ty & payload & ->). done.
    + intros ev H. by apply Hc in H as (_ & _ & Hk & _).
    + intros ev H. apply Hl in H as (llm & _ & _ & ->). done.
    + intros ev H. by apply Hm in H as (_ & _ & Hk & _).
    + intros ev H. by apply Hr in H as (_ & _ & Hk & _).
  - rewrite (count_zero is_retrieve_call memory_calls),
      (count_zero is_retrieve_call loop), (count_zero is_retrieve_call calls),
      (count_zero is_retrieve_call final); [unfold count at 2; simpl; lia| | | |].
    + intros ev H. apply Hf in H as (ty & payload & ->). done.
    + intros ev H. by apply Hc in H as (_ & Hk & _).
    + intros ev H. apply Hl in H as (llm & _ & _ & ->). done.
    + intros ev H. by apply Hm in H as (_ & Hk & _).
  - rewrite (count_zero is_loop_call rag_calls), (count_zero is_loop_call memory_calls),
      (count_zero is_loop_call calls), (count_zero is_loop_call final);
      [unfold count at 1; simpl; lia| | | |].
    + intros ev H. apply Hf in H as (ty & payload & ->). done.
    + intros ev H. by apply Hc in H as (_ & _ & _ & Hk & _).
    + intros ev H. by apply Hm in H as (_ & _ & _ & Hk & _).
    + intros ev H. by apply Hr in H as (_ & _ & _ & Hk & _).
  - rewrite (count_zero is_emit rag_calls), (count_zero is_emit memory_calls),
      (count_zero is_emit loop), (count_zero is_emit calls);
      [unfold count at 1; simpl; lia| | | |].
    + intros ev H. by apply Hc in H as (_ & _ & _ & _ & Hk & _).
    + intros ev H. apply Hl in H as (llm & _ & _ & ->). done.
    + intros ev H. by apply Hm in H as (_ & _ & _ & _ & Hk).
    + intros ev H. by apply Hr in H as (_ & _ & _ & _ & Hk).
Qed.

(** C1. The system prompt is the base prompt, then the Knowledge Assembler
    output, then the Retrieval Bridge output, then the memory recall (there
    only when memory is enabled and a handle was acquired), each appended
    after a blank line and only when not empty; the loop receives it as the
    system message, before the conversation.  The loop is called with it in
    every turn that obtains the LLM client, except when a key of the model
    settings repeats a keyword of the call: that turn ends in the
    [TypeError] of the call, reported in a run-failed event, and no prompt
    is handed over.  For the configuration with prompt [Be helpful.], one
    always-included entry Policy / [No refunds.], no tools and memory
    disabled, and the one user message [Hi], the system message is the base
    prompt, a blank line, [## Policy], a line break, [No refunds.], and no
    tools are passed. *)
Theorem system_prompt_assembly :
  (∀ ext self ctx t,
     let cfg := config self in
     ∃ rag t1 handle memory t2 new,
       let prompt :=
         assemble (base_prompt cfg) [_build_knowledge_context cfg; rag; memory] in
       _retrieve_rag_knowledge ext self cfg ctx t = (Ok rag, t1)
       ∧ memory_phase ext ctx (memory_enabled_of cfg) t1 handle memory t2
       ∧ (run ext self ctx t).2 = t ++ new
       ∧ (∀ args, CallRunAgenticLoop args ∈ new →
                  la_messages args = messages_with prompt ctx)
       ∧ ∀ llm,
           get_llm_client_for_model ext t2 (model_of ext cfg ctx) = Ok llm →
           match repeated_keyword (settings_of cfg) with
           | None =>
               ∃ args,
                 loop_called ext self ctx t t2 args
                 ∧ la_messages args = messages_with prompt ctx
           | Some keyword =>
               run ext self ctx t
               = (Raise (multiple_values ext keyword),
                  t2 ++ [CallGetLLMClient (model_of ext cfg ctx);
                         Emit RUN_FAILED (failure_of (multiple_values ext keyword))])
           end)
  ∧ (∀ ext t llm,
       let self := runtime_of (example_config [policy_entry] [] false) in
       let ctx := anonymous_ctx [user_message "Hi"] in
       get_llm_client_for_model ext t (DEFAULT_MODEL ext) = Ok llm →
       ∃ args,
         loop_called ext self ctx t t args
         ∧ la_messages args
           = [system_message
                ("Be helpful." +:+ NL +:+ NL +:+ "## Policy" +:+ NL +:+ "No refunds.");
              user_message "Hi"]
         ∧ la_tools args = None).
Proof.
  split.
  - intros ext self ctx t cfg.
    destruct (turn_events_classified ext self ctx t)
      as (rag & t1 & handle & memory & t2 & new & Hrag & Hphase & Htrace & _ & Hloop
          & _ & _ & _ & Hreach & _).
    fold cfg in Hrag, Hphase, Hloop, Hreach.
    exists rag, t1, handle, memory, t2, new. cbv zeta.
    split; [done|]. split; [done|]. split; [done|]. split.
    { intros args Hin. by destruct (Hloop args Hin) as (llm & before & _ & _ & ->). }
    intros llm Hllm. specialize (Hreach llm Hllm).
    destruct (repeated_keyword (settings_of cfg)); [done|].
    eexists. split; [exact Hreach|done].
  - intros ext t llm self ctx Hllm.
    assert (Hrag : _retrieve_rag_knowledge ext self (config self) ctx t
                   = (Ok EmptyString, t)).
    { by rewrite retrieve_rag_knowledge_eq. }
    assert (Hphase : memory_phase ext ctx (memory_enabled_of (config self)) t
                       None EmptyString t).
    { by apply memory_disabled. }
    pose proof (run_from_phase ext self ctx t _ _ _ _ _ Hrag Hphase) as Hrun.
    eexists. split; [by eapply finish_turn_loop_called|].
    split; reflexivity.
Qed.

(** C1, at the example: the turn of the end-to-end scenario in a world
    whose LLM client is always there. *)
Lemma system_prompt_assembly_witness :
  let ext := example_world (Ok EmptyString) (Ok {| user_pk := JNull |}) (Ok tt)
               (Ok (PJson JNull)) (says (Some "Hello!")) in
  let self := runtime_of (example_config [policy_entry] [] false) in
  let ctx := anonymous_ctx [user_message "Hi"] in
  ∃ args,
    loop_called ext self ctx [] [] args
    ∧ la_messages args
      = [system_message
           ("Be helpful." +:+ NL +:+ NL +:+ "## Policy" +:+ NL +:+ "No refunds.");
         user_message "Hi"]
    ∧ la_tools args = None.
Proof.
  intros ext self ctx.
  exact (proj2 system_prompt_assembly ext [] {| llm_model := "default-model" |} eq_refl).
Defined.

Lemma tools_of_enabled cfg :
  memory_enabled_of cfg = true →
  tools_of cfg = map strip_meta (default [] (cfg_tools cfg)) ++ [MEMORY_TOOL_SCHEMA].
Proof. intros Hen. unfold tools_of. by rewrite Hen, build_tool_schemas_map. Qed.

Lemma get_memory_store_no_identity ext ctx t :
  truthy (dict_get (metadata ctx) "user_id") = false
  ∨ truthy (conversation_id ctx) = false →
  _get_memory_store ext ctx t = (Ok None, t).
Proof.
  intros Hmissing. rewrite get_memory_store_eq. cbv zeta.
  destruct Hmissing as [-> | ->]; [done|]. by rewrite andb_false_r.
Qed.

Lemma memory_phase_no_identity ext ctx enabled t handle memory t2 :
  truthy (dict_get (metadata ctx) "user_id") = false
  ∨ truthy (conversation_id ctx) = false →
  memory_phase ext ctx enabled t handle memory t2 →
  handle = None ∧ memory = EmptyString ∧ t2 = t.
Proof.
  intros Hmissing Hphase.
  pose proof (get_memory_store_no_identity ext ctx t Hmissing) as Hget.
  inversion Hphase; subst; repeat split; congruence.
Qed.

(** C3. With memory enabled, the schema list the loop receives is the
    configuration's tools in list order, each reduced to its type and
    function, then the built-in [remember] schema; the loop is called
    whenever the LLM client is there and no key of the model settings
    repeats a keyword of the call.  The execution map has
    exactly the declared names as its keys (so one entry per distinct name),
    each mapped to the info of the last tool declaring it, and has no entry
    for [remember] unless a configured tool declares that name. *)
Theorem tool_catalog ext self ctx t :
  let cfg := config self in
  let tools := default [] (cfg_tools cfg) in
  memory_enabled_of cfg = true →
  (∃ rag t1 handle memory t2 new,
     _retrieve_rag_knowledge ext self cfg ctx t = (Ok rag, t1)
     ∧ memory_phase ext ctx true t1 handle memory t2
     ∧ (run ext self ctx t).2 = t ++ new
     ∧ (∀ args, CallRunAgenticLoop args ∈ new →
                la_tools args = Some (map strip_meta tools ++ [MEMORY_TOOL_SCHEMA]))
     ∧ ∀ llm,
         get_llm_client_for_model ext t2 (model_of ext cfg ctx) = Ok llm →
         repeated_keyword (settings_of cfg) = None →
         ∃ args,
           loop_called ext self ctx t t2 args
           ∧ la_tools args = Some (map strip_meta tools ++ [MEMORY_TOOL_SCHEMA]))
  ∧ dom (_build_tool_map cfg) = list_to_set (omap declared_name tools)
  ∧ size (_build_tool_map cfg) = length (remove_dups (omap declared_name tools))
  ∧ (∀ n, _build_tool_map cfg !! n
          = info_of <$> last (List.filter (declares n) tools))
  ∧ (Forall (fun tool => declared_name tool ≠ Some "remember") tools →
     _build_tool_map cfg !! "remember" = None).
Proof.
  intros cfg tools Hen. split; [|split; [|split; [|split]]].
  - destruct (turn_events_classified ext self ctx t)
      as (rag & t1 & handle & memory & t2 & new & Hrag & Hphase & Htrace & _ & Hloop
          & _ & _ & _ & Hreach & _).
    fold cfg in Hrag, Hphase, Hloop, Hreach. rewrite Hen in Hphase.
    assert (Htools : ∀ llm prompt,
              la_tools (loop_args ext cfg ctx llm prompt)
              = Some (map strip_meta tools ++ [MEMORY_TOOL_SCHEMA])).
    { intros llm prompt. unfold loop_args. cbn [la_tools].
      rewrite (tools_of_enabled _ Hen). fold tools. by destruct (map strip_meta tools). }
    exists rag, t1, handle, memory, t2, new.
    split; [done|]. split; [done|]. split; [done|]. split.
    { intros args Hin. destruct (Hloop args Hin) as (llm & before & _ & _ & ->).
      apply Htools. }
    intros llm Hllm Hkey. specialize (Hreach llm Hllm). rewrite Hkey in Hreach.
    eexists. split; [exact Hreach | apply Htools].
  - apply build_tool_map_dom.
  - apply build_tool_map_size.
  - apply build_tool_map_lookup.
  - intros Hnone. rewrite build_tool_map_lookup. fold tools.
    replace (List.filter (declares "remember") tools) with (@nil ToolSpec); [done|].
    induction Hnone as [|tool rest Hne _ IH]; [done|]. simpl.
    destruct (declares "remember" tool) eqn:Hd; [|done].
    by apply declares_spec in Hd.
Qed.

(** C3, at the example: tools [a] and [b] with memory enabled give three
    schemas and an execution map of two entries, none of them [remember]. *)
Lemma tool_catalog_witness :
  let ext := example_world (Ok EmptyString) (Ok {| user_pk := JNull |}) (Ok tt)
               (Ok (PJson JNull)) (says (Some "Hello!")) in
  let cfg := example_config [] [named_tool "a" "tools.a"; named_tool "b" "tools.b"] true in
  (∃ args,
     loop_called ext (runtime_of cfg) (anonymous_ctx [user_message "Hi"]) [] [] args
     ∧ (length <$> la_tools args) = Some 3)
  ∧ size (_build_tool_map cfg) = 2
  ∧ _build_tool_map cfg !! "remember" = None.
Proof.
  intros ext cfg.
  pose proof (tool_catalog ext (runtime_of cfg) (anonymous_ctx [user_message "Hi"]) []
                eq_refl) as (Hloop & _ & Hsize & _ & Hnone).
  split; [|split].
  - destruct Hloop as (rag & t1 & handle & memory & t2 & new & Hrag & Hphase & _ & _
                       & Hloop).
    rewrite retrieve_rag_knowledge_eq in Hrag. injection Hrag as <- <-.
    apply memory_phase_no_identity in Hphase as (_ & _ & ->); [|by left].
    destruct (Hloop {| llm_model := "default-model" |} eq_refl eq_refl)
      as (args & Hcalled & Htools).
    exists args. split; [done|]. by rewrite Htools.
  - exact Hsize.
  - apply Hnone. by repeat constructor.
Defined.

Lemma assemble_no_memory base knowledge rag :
  assemble base [knowledge; rag; EmptyString] = assemble base [knowledge; rag].
Proof. done. Qed.

(** C7. Without a user id in the metadata, or without a conversation id,
    acquiring the memory store returns no handle, raises nothing and calls
    nothing; and whatever [memory_enabled] says, the prompt the loop
    receives has the base, knowledge and retrieval layers only.  (The loop
    is called when the LLM client is there and no key of the model settings
    repeats a keyword of the call.) *)
Theorem memory_needs_identity ext self ctx t :
  truthy (dict_get (metadata ctx) "user_id") = false
  ∨ truthy (conversation_id ctx) = false →
  let cfg := config self in
  let prompt rag := assemble (base_prompt cfg) [_build_knowledge_context cfg; rag] in
  (∀ t0, _get_memory_store ext ctx t0 = (Ok None, t0))
  ∧ ∃ rag t1 new,
      _retrieve_rag_knowledge ext self cfg ctx t = (Ok rag, t1)
      ∧ (∀ handle memory t2,
           memory_phase ext ctx (memory_enabled_of cfg) t1 handle memory t2 →
           handle = None ∧ memory = EmptyString ∧ t2 = t1)
      ∧ (run ext self ctx t).2 = t ++ new
      ∧ (∀ args, CallRunAgenticLoop args ∈ new →
                 la_messages args = messages_with (prompt rag) ctx)
      ∧ ∀ llm,
          get_llm_client_for_model ext t1 (model_of ext cfg ctx) = Ok llm →
          repeated_keyword (settings_of cfg) = None →
          ∃ args,
            loop_called ext self ctx t t1 args
            ∧ la_messages args = messages_with (prompt rag) ctx.
Proof.
  intros Hmissing cfg prompt.
  assert (Hget : ∀ t0, _get_memory_store ext ctx t0 = (Ok None, t0)).
  { intros t0. by apply get_memory_store_no_identity. }
  split; [done|].
  destruct (turn_events_classified ext self ctx t)
    as (rag & t1 & handle & memory & t2 & new & Hrag & Hphase & Htrace & _ & Hloop
        & _ & _ & _ & Hreach & _).
  fold cfg in Hrag, Hphase, Hloop, Hreach.
  destruct (memory_phase_no_identity _ _ _ _ _ _ _ Hmissing Hphase) as (-> & -> & ->).
  exists rag, t1, new. split; [done|].
  split; [intros handle memory t2; by apply memory_phase_no_identity|].
  split; [done|]. split.
  { intros args Hin. destruct (Hloop args Hin) as (llm & before & _ & _ & ->).
    cbn [loop_args la_messages]. by rewrite assemble_no_memory. }
  intros llm Hllm Hkey. specialize (Hreach llm Hllm). rewrite Hkey in Hreach.
  eexists. split; [exact Hreach|].
  cbn [loop_args la_messages]. by rewrite assemble_no_memory.
Qed.

(** C7, at an example: memory is enabled and the store holds a memory, but
    the turn carries no user and no conversation. *)
Lemma memory_needs_identity_witness :
  let ext := example_world (Ok EmptyString) (Ok {| user_pk := JNull |}) (Ok tt)
               (Ok (PJson JNull)) (says (Some "Hello!")) in
  let self := runtime_of (example_config [policy_entry] [] true) in
  let ctx := anonymous_ctx [user_message "Hi"] in
  _get_memory_store ext ctx [] = (Ok None, [])
  ∧ ∃ args,
      loop_called ext self ctx [] [] args
      ∧ la_messages args
        = [system_message
             ("Be helpful." +:+ NL +:+ NL +:+ "## Policy" +:+ NL +:+ "No refunds.");
           user_message "Hi"].
Proof.
  intros ext self ctx.
  destruct (memory_needs_identity ext self ctx [] (or_introl eq_refl))
    as (Hget & rag & t1 & new & Hrag & _ & _ & _ & Hloop).
  split; [apply Hget|].
  rewrite retrieve_rag_knowledge_eq in Hrag. injection Hrag as <- <-.
  exact (Hloop {| llm_model := "default-model" |} eq_refl eq_refl).
Defined.

(** C10. With a user id and a conversation id, acquiring the memory store
    never raises: a failure to resolve the user, or to build the store,
    gives no handle; and a turn with memory enabled that got no handle
    goes on to the loop with the base, knowledge and retrieval layers (the
    loop is called when the LLM client is there and no key of the model
    settings repeats a keyword of the call). *)
Theorem memory_acquisition_never_raises ext ctx t :
  let user_id := dict_get (metadata ctx) "user_id" in
  let conv := conversation_id ctx in
  truthy user_id = true →
  truthy conv = true →
  (∃ handle t', _get_memory_store ext ctx t = (Ok handle, t'))
  ∧ (∀ e, User_objects_get ext t user_id = Raise e →
          _get_memory_store ext ctx t = (Ok None, t ++ [CallUserGet user_id]))
  ∧ (∀ user e,
       User_objects_get ext t user_id = Ok user →
       new_ConversationMemoryStore ext (t ++ [CallUserGet user_id]) user conv = Raise e →
       _get_memory_store ext ctx t
       = (Ok None, t ++ [CallUserGet user_id; CallNewMemoryStore user conv]))
  ∧ (∀ self t0 rag t',
       let cfg := config self in
       let prompt := assemble (base_prompt cfg) [_build_knowledge_context cfg; rag] in
       memory_enabled_of cfg = true →
       _retrieve_rag_knowledge ext self cfg ctx t0 = (Ok rag, t) →
       _get_memory_store ext ctx t = (Ok None, t') →
       ∃ new,
         (run ext self ctx t0).2 = t0 ++ new
         ∧ (∀ args, CallRunAgenticLoop args ∈ new →
                    la_messages args = messages_with prompt ctx)
         ∧ ∀ llm,
             get_llm_client_for_model ext t' (model_of ext cfg ctx) = Ok llm →
             repeated_keyword (settings_of cfg) = None →
             ∃ args,
               loop_called ext self ctx t0 t' args
               ∧ la_messages args = messages_with prompt ctx).
Proof.
  intros user_id conv Huser Hconv.
  split; [apply get_memory_store_total|]. split; [|split].
  - intros e He. rewrite get_memory_store_eq. cbv zeta.
    fold user_id. fold conv. by rewrite Huser, Hconv, He.
  - intros user e Hu He. rewrite get_memory_store_eq. cbv zeta.
    fold user_id. fold conv. rewrite Huser, Hconv, Hu, He. simpl.
    by rewrite <- app_assoc.
  - intros self t0 rag t' cfg prompt Hen Hrag Hget.
    assert (Hphase : memory_phase ext ctx (memory_enabled_of cfg) t None EmptyString t').
    { by apply memory_absent. }
    destruct (turn_events_classified ext self ctx t0)
      as (rag' & t1 & handle & memory & t2 & new & Hrag' & Hphase' & Htrace & _ & Hloop
          & _ & _ & _ & Hreach & _).
    fold cfg in Hrag', Hphase', Hloop, Hreach.
    rewrite Hrag in Hrag'. injection Hrag' as <- <-.
    destruct (memory_phase_det _ _ _ _ _ _ _ _ _ _ Hphase Hphase') as (<- & <- & <-).
    exists new. split; [done|]. split.
    { intros args Hin. destruct (Hloop args Hin) as (llm & before & _ & _ & ->).
      cbn [loop_args la_messages]. by rewrite assemble_no_memory. }
    intros llm Hllm Hkey. specialize (Hreach llm Hllm). rewrite Hkey in Hreach.
    eexists. split; [exact Hreach|].
    cbn [loop_args la_messages]. by rewrite assemble_no_memory.
Qed.

(** C10, at an example: the user lookup fails, the turn goes on. *)
Lemma memory_acquisition_witness :
  let ext := example_world (Ok EmptyString) (Raise (Exception "User matching query does not exist."))
               (Ok tt) (Ok (PJson JNull)) (says (Some "Hello!")) in
  let self := runtime_of (example_config [policy_entry] [] true) in
  let ctx := signed_in_ctx [user_message "Hi"] in
  _get_memory_store ext ctx [] = (Ok None, [CallUserGet (JNum 7)])
  ∧ ∃ args,
      loop_called ext self ctx [] [CallUserGet (JNum 7)] args
      ∧ la_messages args
        = [system_message
             ("Be helpful." +:+ NL +:+ NL +:+ "## Policy" +:+ NL +:+ "No refunds.");
           user_message "Hi"].
Proof.
  intros ext self ctx.
  destruct (memory_acquisition_never_raises ext ctx [] eq_refl eq_refl)
    as (_ & Huser & _ & Hturn).
  split; [exact (Huser _ eq_refl)|].
  destruct (Hturn self [] EmptyString [CallUserGet (JNum 7)] eq_refl eq_refl eq_refl)
    as (new & _ & _ & Hreach).
  exact (Hreach {| llm_model := "default-model" |} eq_refl eq_refl).
Defined.

(** ** Events *)

Lemma retrieve_rag_emitted ext self cfg ctx t r t1 :
  _retrieve_rag_knowledge ext self cfg ctx t = (r, t1) → emitted t1 = emitted t.
Proof.
  rewrite retrieve_rag_knowledge_eq. cbv zeta.
  destruct (_ && _); intros [= _ <-]; [|done].
  by rewrite emitted_app, app_nil_r.
Qed.

Lemma get_memory_store_emitted ext ctx t r t1 :
  _get_memory_store ext ctx t = (r, t1) → emitted t1 = emitted t.
Proof.
  rewrite get_memory_store_eq. cbv zeta.
  destruct (_ && _); [|by intros [= _ <-]].
  destruct (User_objects_get _ _ _); intros [= _ <-];
    rewrite !emitted_app; simpl; by rewrite !app_nil_r.
Qed.

Lemma recall_memories_emitted ext store t r t1 :
  _recall_memories ext store t = (r, t1) → emitted t1 = emitted t.
Proof.
  unfold _recall_memories. unfold_monad.
  destruct (recall_all _ _ _) as [[|m ms]|e]; try (intros [= _ <-]);
    rewrite ?emitted_app; simpl; rewrite ?app_nil_r; try done.
  destruct (format_for_prompt _ _ _ _); intros [= _ <-];
    rewrite !emitted_app; simpl; by rewrite !app_nil_r.
Qed.

Lemma memory_phase_emitted ext ctx enabled t handle memory t2 :
  memory_phase ext ctx enabled t handle memory t2 → emitted t2 = emitted t.
Proof.
  intros [| t' _ Hget | store t1 text t' _ Hget Hrec]; [done | |].
  - by eapply get_memory_store_emitted.
  - apply recall_memories_emitted in Hrec. apply get_memory_store_emitted in Hget.
    congruence.
Qed.

(** C9 (as amended).  The orchestrator emits nothing before the loop ends.
    When the loop returns with a non-empty final text, it emits exactly one
    assistant-message event carrying that text and returns the result; when
    the loop returns with no final text, or an empty one, it emits nothing
    and returns the result.  When the loop raises, it emits exactly one
    run-failed event carrying the error text and raises the same exception;
    so it does when the call of the loop itself is refused, a key of the
    model settings repeating a keyword of the call.  When the LLM client
    cannot be obtained the turn stops with that exception before the loop,
    and nothing is emitted. *)
Theorem turn_events ext self ctx t :
  let cfg := config self in
  let model := model_of ext cfg ctx in
  let turn := run ext self ctx t in
  ∃ rag t1 handle memory t2,
    _retrieve_rag_knowledge ext self cfg ctx t = (Ok rag, t1)
    ∧ memory_phase ext ctx (memory_enabled_of cfg) t1 handle memory t2
    ∧ emitted t2 = emitted t
    ∧ match get_llm_client_for_model ext t2 model with
      | Raise e => turn.1 = Raise e ∧ emitted turn.2 = emitted t
      | Ok llm =>
          match repeated_keyword (settings_of cfg) with
          | Some keyword =>
              turn
              = (Raise (multiple_values ext keyword),
                 t2 ++ [CallGetLLMClient model;
                        Emit RUN_FAILED (failure_of (multiple_values ext keyword))])
              ∧ emitted turn.2
                = emitted t ++ [(RUN_FAILED, failure_of (multiple_values ext keyword))]
          | None =>
              let t3 := t2 ++ [CallGetLLMClient model] in
              let args :=
                loop_args ext cfg ctx llm
                  (assemble (base_prompt cfg)
                     [_build_knowledge_context cfg; rag; memory]) in
              match (drive (execute_tool ext ctx (_build_tool_map cfg)
                              NewDynamicToolExecutor handle)
                       (run_agentic_loop ext t3 args)
                       (t3 ++ [CallRunAgenticLoop args])).1 with
              | Ok result =>
                  turn.1
                  = Ok {| final_output :=
                            JObj [("response", opt_str_json (final_content result))];
                          final_messages := loop_messages result |}
                  ∧ emitted turn.2
                    = emitted t
                      ++ match final_content result with
                         | Some (String c s) =>
                             [(ASSISTANT_MESSAGE, JObj [("content", JStr (String c s))])]
                         | _ => []
                         end
              | Raise e =>
                  turn.1 = Raise e
                  ∧ emitted turn.2 = emitted t ++ [(RUN_FAILED, failure_of e)]
              end
          end
      end.
Proof.
  intros cfg model turn. subst turn.
  destruct (run_prompt ext self ctx t)
    as (rag & t1 & handle & memory & t2 & Hrag & Hphase & ->).
  fold cfg in Hrag, Hphase |- *.
  exists rag, t1, handle, memory, t2.
  assert (Hpre : emitted t2 = emitted t).
  { pose proof (memory_phase_emitted _ _ _ _ _ _ _ Hphase).
    pose proof (retrieve_rag_emitted _ _ _ _ _ _ _ Hrag). congruence. }
  split; [done|]. split; [done|]. split; [done|].
  rewrite finish_turn_eq. cbv zeta. fold model.
  destruct (get_llm_client_for_model ext t2 model) as [llm|e].
  2:{ simpl. by rewrite emitted_app, app_nil_r. }
  destruct (repeated_keyword (settings_of cfg)) as [keyword|].
  { simpl. split; [by rewrite <- app_assoc|].
    rewrite !emitted_app. simpl. by rewrite app_nil_r, Hpre. }
  set (t3 := t2 ++ [CallGetLLMClient model]).
  set (args := loop_args _ _ _ _ _).
  pose proof (drive_emitted ext ctx (_build_tool_map cfg) NewDynamicToolExecutor handle
                (run_agentic_loop ext t3 args) (t3 ++ [CallRunAgenticLoop args])) as Hdrive.
  destruct (drive _ _ _) as [[result|e] t4]; simpl in Hdrive |- *.
  - split; [done|]. rewrite emitted_app, Hdrive. subst t3.
    rewrite !emitted_app. simpl. rewrite !app_nil_r, Hpre.
    by destruct (final_content result) as [[|c s]|].
  - split; [done|]. rewrite emitted_app, Hdrive. subst t3.
    rewrite !emitted_app. simpl. by rewrite !app_nil_r, Hpre.
Qed.

(** C9 as stated fails: the loop returns, once with no final text and once
    with an empty one, the turn succeeds, and no event is emitted. *)
Lemma silent_success :
  let world := example_world (Ok EmptyString) (Ok {| user_pk := JNull |}) (Ok tt)
                 (Ok (PJson JNull)) in
  let self := runtime_of (example_config [policy_entry] [] false) in
  let ctx := anonymous_ctx [user_message "Hi"] in
  ((run (world (says None)) self ctx []).1
   = Ok {| final_output := JObj [("response", JNull)]; final_messages := [] |}
   ∧ emitted (run (world (says None)) self ctx []).2 = [])
  ∧ ((run (world (says (Some EmptyString))) self ctx []).1
     = Ok {| final_output := JObj [("response", JStr EmptyString)];
             final_messages := [] |}
     ∧ emitted (run (world (says (Some EmptyString))) self ctx []).2 = []).
Proof. by vm_compute. Qed.

(** C5 as stated fails: with an indexed [rag] entry and a most recent user
    message whose content is empty, the retriever (which would answer) is
    not called and the result is empty. *)
Lemma retrieval_skips_empty_query :
  let ext := example_world (Ok "Retrieved context") (Ok {| user_pk := JNull |}) (Ok tt)
               (Ok (PJson JNull)) (says None) in
  let cfg := example_config [manual_entry] [] false in
  let ctx := anonymous_ctx [user_message "Hi"; user_message EmptyString] in
  existsb rag_indexed (default [] (cfg_knowledge cfg)) = true
  ∧ input_messages ctx = [user_message "Hi"] ++ user_message EmptyString :: []
  ∧ is_user (user_message EmptyString) = true
  ∧ retrieve_for_agent ext [] "agent-1" (content_of (user_message EmptyString)) (JObj [])
    = Ok "Retrieved context"
  ∧ _retrieve_rag_knowledge ext (runtime_of cfg) cfg ctx [] = (Ok EmptyString, []).
Proof. by vm_compute. Qed.

(** C2, at an example: a call to [x], which the map does not hold. *)
Lemma tool_dispatch_witness :
  let ext := example_world (Ok EmptyString) (Ok {| user_pk := JNull |}) (Ok tt)
               (Ok (PJson JNull)) (says None) in
  let tool_map := _build_tool_map (example_config [] [named_tool "a" "tools.a"] true) in
  execute_tool ext (anonymous_ctx []) tool_map NewDynamicToolExecutor None "x" ∅ []
  = (Ok ("{" +:+ DQ +:+ "error" +:+ DQ +:+ ": " +:+ DQ
         +:+ "Tool 'x' has no function_path configured" +:+ DQ +:+ "}"), []).
Proof.
  intros ext tool_map.
  refine (proj1 (proj2 (tool_dispatch_never_raises ext (anonymous_ctx []) tool_map
           NewDynamicToolExecutor None "x" ∅ [] _)) (or_introl eq_refl)).
  discriminate.
Defined.


(** White space beyond ASCII is trimmed too: a key made of a no-break
    space (U+00A0) and an em space (U+2003) counts as missing, and nothing
    is persisted. *)
Lemma remember_unicode_blank_key :
  let ext := example_world (Ok EmptyString) (Ok {| user_pk := JNull |}) (Ok tt)
               (Ok (PJson JNull)) (says None) in
  let store := {| store_user := {| user_pk := JNum 7 |};
                  store_conversation_id := JStr "conv-1" |} in
  let blank :=
    String "194" (String "160" (String "226" (String "128" (String "131" EmptyString)))) in
  let args : gmap string json := <["key" := JStr blank]> (<["value" := JStr "Ada"]> ∅) in
  strip blank = EmptyString
  ∧ _execute_remember_tool ext args (Some store) []
    = (Ok ("{" +:+ DQ +:+ "error" +:+ DQ +:+ ": " +:+ DQ
           +:+ "Missing required parameter: key" +:+ DQ +:+ "}"), []).
Proof. by vm_compute. Qed.


(** C4, at an example: the configuration declares a tool named [remember]
    of its own; a call to that name without a memory handle still gets the
    built-in's answer, and the executor is not called. *)
Lemma remember_dispatch_witness :
  let ext := example_world (Ok EmptyString) (Ok {| user_pk := JNull |}) (Ok tt)
               (Ok (PJson (JStr "shadow"))) (says None) in
  let tool_map :=
    _build_tool_map (example_config [] [named_tool "remember" "tools.shadow"] true) in
  is_Some (tool_map !! "remember")
  ∧ execute_tool ext (anonymous_ctx []) tool_map NewDynamicToolExecutor None "remember" ∅ []
    = (Ok ("{" +:+ DQ +:+ "error" +:+ DQ +:+ ": " +:+ DQ
           +:+ "Memory not available for this conversation" +:+ DQ +:+ ", "
           +:+ DQ +:+ "hint" +:+ DQ +:+ ": " +:+ DQ
           +:+ "Memory requires a logged-in user and conversation context"
           +:+ DQ +:+ "}"), []).
Proof.
  intros ext tool_map. split; [by eexists|].
  exact (proj2 (proj2 (remember_dispatch ext (anonymous_ctx []) NewDynamicToolExecutor
                         None ∅ [])) tool_map eq_refl).
Defined.

(** * Further properties *)

(** ** Memory Bridge: recall *)

(** X1. [_recall_memories] never raises and asks the store for its records
    exactly once.  A failing store, or one with no record, gives the empty
    text and the formatter is not called; otherwise the formatter is called
    once on the records, and its text is returned as it is, or the empty
    text when it raises. *)
Theorem recall_memories_behaviour ext store t :
  let asked := t ++ [CallRecallAll store] in
  _recall_memories ext store t
  = match recall_all ext t store with
    | Raise _ => (Ok EmptyString, asked)
    | Ok [] => (Ok EmptyString, asked)
    | Ok (m :: ms) =>
        (match format_for_prompt ext asked store (m :: ms) with
         | Ok text => Ok text
         | Raise _ => Ok EmptyString
         end,
         asked ++ [CallFormatForPrompt store (m :: ms)])
    end.
Proof.
  intros asked. unfold _recall_memories. unfold_monad. fold asked.
  destruct (recall_all ext t store) as [[|m ms]|e]; try done.
  by destruct (format_for_prompt _ _ _ _).
Qed.

(** ** Tool Dispatcher: results and the execution map *)

(** X2. For a tool with a function path, dispatch calls the executor once,
    with that path, the call's arguments, the run id, the user id of the
    metadata and the tool id.  A string result is returned as it is, any
    other JSON value is serialized, and a result that cannot be serialized
    comes back as an error payload carrying the serializer's message. *)
Theorem tool_result_normalization ext ctx tool_map executor handle tool_name tool_args t
    info path :
  tool_name ≠ "remember" →
  tool_map !! tool_name = Some info →
  function_path info = Some path →
  path ≠ EmptyString →
  let user_id := dict_get (metadata ctx) "user_id" in
  let dispatch := execute_tool ext ctx tool_map executor handle tool_name tool_args t in
  dispatch.2 = t ++ [CallExecute path tool_args (run_id ctx) user_id (tool_id info)]
  ∧ (∀ s, executor_execute ext t path tool_args (run_id ctx) user_id (tool_id info)
          = Ok (PJson (JStr s)) →
          dispatch.1 = Ok s)
  ∧ (∀ j, executor_execute ext t path tool_args (run_id ctx) user_id (tool_id info)
          = Ok (PJson j) →
          (∀ s, j ≠ JStr s) →
          dispatch.1 = Ok (json_dumps ext j))
  ∧ (∀ type_error,
       executor_execute ext t path tool_args (run_id ctx) user_id (tool_id info)
       = Ok (PObject type_error) →
       dispatch.1 = Ok (json_dumps ext (JObj [("error", JStr type_error)]))).
Proof.
  intros Hname Hinfo Hpath Hne user_id dispatch. subst dispatch.
  unfold execute_tool. apply String.eqb_neq in Hname. rewrite Hname.
  rewrite execute_tool_eq. cbv zeta. fold user_id. rewrite Hinfo. simpl.
  rewrite Hpath. destruct path as [|c p]; [done|]. simpl.
  split; [done|]. split; [|split].
  - by intros s ->.
  - intros j -> Hj. destruct j; try done. by destruct (Hj s).
  - by intros type_error ->.
Qed.

(** X2, at an example: the executor answers with a list; the text handed
    back is its serialization. *)
Lemma tool_result_normalization_witness :
  let ext := example_world (Ok EmptyString) (Ok {| user_pk := JNull |}) (Ok tt)
               (Ok (PJson (JArr [JNum 1; JStr "two"]))) (says None) in
  let tool_map := _build_tool_map (example_config [] [named_tool "a" "tools.a"] true) in
  let dispatch :=
    execute_tool ext (signed_in_ctx []) tool_map NewDynamicToolExecutor None "a" ∅ [] in
  dispatch.2 = [CallExecute "tools.a" ∅ "run-1" (JNum 7) None]
  ∧ dispatch.1 = Ok ("[1, " +:+ DQ +:+ "two" +:+ DQ +:+ "]").
Proof.
  intros ext tool_map dispatch.
  destruct (tool_result_normalization ext (signed_in_ctx []) tool_map
              NewDynamicToolExecutor None "a" ∅ []
              {| function_path := Some "tools.a"; tool_id := None; is_dynamic := false |}
              "tools.a") as (Htrace & _ & Hjson & _);
    [discriminate | reflexivity | reflexivity | discriminate |].
  split; [exact Htrace|].
  apply (Hjson (JArr [JNum 1; JStr "two"])); [reflexivity | discriminate].
Defined.

(** X3. What the builder stores is what the dispatcher runs.  For a name
    other than [remember], against the execution map built from the
    configuration: when the last tool declaring the name has a non-empty
    function path in its [_meta], the executor is called with that path and
    that tool's id; when it has none, or no tool declares the name, the
    call is answered with the no-function-path payload and the executor is
    not called. *)
Theorem last_declaration_is_executed ext ctx cfg executor handle name tool_args t :
  name ≠ "remember" →
  let tools := default [] (cfg_tools cfg) in
  let dispatch :=
    execute_tool ext ctx (_build_tool_map cfg) executor handle name tool_args t in
  let no_path :=
    (Ok (json_dumps ext (JObj [
       ("error", JStr ("Tool '" +:+ name +:+ "' has no function_path configured"))])),
     t) in
  (∀ tool,
     last (List.filter (declares name) tools) = Some tool →
     let meta := default empty_meta (tool_meta tool) in
     match meta_function_path meta with
     | Some (String c p) =>
         dispatch.2
         = t ++ [CallExecute (String c p) tool_args (run_id ctx)
                   (dict_get (metadata ctx) "user_id") (meta_tool_id meta)]
     | _ => dispatch = no_path
     end)
  ∧ (Forall (fun tool => declares name tool = false) tools → dispatch = no_path).
Proof.
  intros Hname tools dispatch no_path. subst dispatch no_path.
  unfold execute_tool. apply String.eqb_neq in Hname. rewrite Hname.
  rewrite execute_tool_eq. cbv zeta. rewrite build_tool_map_lookup. fold tools.
  split.
  - intros tool ->. simpl.
    by destruct (meta_function_path (default empty_meta (tool_meta tool))) as [[|c p]|].
  - intros Hnone.
    replace (List.filter (declares name) tools) with (@nil ToolSpec); [done|].
    induction Hnone as [|tool rest Hd _ IH]; [done|]. simpl. by rewrite Hd.
Qed.

(** X3, at an example: two tools declare [a]; the second one's path runs. *)
Lemma last_declaration_witness :
  let ext := example_world (Ok EmptyString) (Ok {| user_pk := JNull |}) (Ok tt)
               (Ok (PJson (JStr "done"))) (says None) in
  let cfg := example_config [] [named_tool "a" "tools.old"; named_tool "b" "tools.b";
                                named_tool "a" "tools.new"] true in
  (execute_tool ext (anonymous_ctx []) (_build_tool_map cfg) NewDynamicToolExecutor
     None "a" ∅ []).2
  = [CallExecute "tools.new" ∅ "run-1" JNull None].
Proof.
  intros ext cfg.
  assert (Hname : "a" ≠ "remember") by discriminate.
  exact (proj1 (last_declaration_is_executed ext (anonymous_ctx []) cfg
                  NewDynamicToolExecutor None "a" ∅ [] Hname)
           (named_tool "a" "tools.new") eq_refl).
Defined.

(** X4. The remember tool trims its arguments before it validates them: a
    [key] that is not a string, or a [value] that is not one (even beside
    an empty key), raises an [AttributeError] out of the dispatcher, and
    nothing is persisted. *)
Theorem remember_rejects_non_strings ext ctx tool_map executor store tool_args t :
  let key := dict_get_default tool_args "key" (JStr EmptyString) in
  let value := dict_get_default tool_args "value" (JStr EmptyString) in
  let dispatch :=
    execute_tool ext ctx tool_map executor (Some store) "remember" tool_args t in
  let no_strip v :=
    Exception ("'" +:+ type_name v +:+ "' object has no attribute 'strip'") in
  ((∀ s, key ≠ JStr s) → dispatch = (Raise (no_strip key), t))
  ∧ (∀ k, key = JStr k → (∀ s, value ≠ JStr s) → dispatch = (Raise (no_strip value), t)).
Proof.
  intros key value dispatch no_strip. subst dispatch.
  change (execute_tool _ _ _ _ _ "remember" tool_args t)
    with (_execute_remember_tool ext tool_args (Some store) t).
  unfold _execute_remember_tool. fold key. fold value. split.
  - intros Hkey. destruct key; try done. by destruct (Hkey s).
  - intros k -> Hvalue. simpl. unfold bind at 1. unfold ret at 1.
    destruct value; try done. by destruct (Hvalue s).
Qed.

(** X4, at an example: the model sends a null value. *)
Lemma remember_rejects_null_witness :
  let ext := example_world (Ok EmptyString) (Ok {| user_pk := JNull |}) (Ok tt)
               (Ok (PJson JNull)) (says None) in
  let store := {| store_user := {| user_pk := JNum 7 |};
                  store_conversation_id := JStr "conv-1" |} in
  let args : gmap string json := <["key" := JStr "name"]> (<["value" := JNull]> ∅) in
  execute_tool ext (signed_in_ctx []) ∅ NewDynamicToolExecutor (Some store)
    "remember" args []
  = (Raise (Exception "'NoneType' object has no attribute 'strip'"), []).
Proof.
  intros ext store args.
  refine (proj2 (remember_rejects_non_strings ext (signed_in_ctx []) ∅
                   NewDynamicToolExecutor store args []) "name" eq_refl _).
  discriminate.
Defined.

Lemma append_cons x (a b : string) : String x a +:+ b = String x (a +:+ b).
Proof. reflexivity. Qed.

Lemma append_empty_r (a : string) : a = a +:+ EmptyString.
Proof. induction a as [|x a IH]; [done|]. rewrite append_cons. by f_equal. Qed.

Lemma append_assoc (a b c : string) : (a +:+ b) +:+ c = a +:+ (b +:+ c).
Proof. induction a as [|x a IH]; [done|]. rewrite !append_cons. by f_equal. Qed.

Lemma append_layer_extends prompt layer :
  ∃ rest, append_layer prompt layer = prompt +:+ rest.
Proof.
  unfold append_layer. destruct (str_truthy layer); [by eexists|].
  exists EmptyString. apply append_empty_r.
Qed.

Lemma assemble_extends base layers : ∃ rest, assemble base layers = base +:+ rest.
Proof.
  unfold assemble. revert base. induction layers as [|layer layers IH]; intros base.
  - exists EmptyString. apply append_empty_r.
  - simpl. destruct (IH (append_layer base layer)) as (rest & ->).
    destruct (append_layer_extends base layer) as (rest' & ->).
    exists (rest' +:+ rest). apply append_assoc.
Qed.

(** ** Turn Orchestrator: what the loop is given *)

(** X5. Every call made for a tool request during a turn is accounted for
    by the turn's own data: a call to the executor carries a non-empty
    function path of an entry of the execution map whose name is not
    [remember], that entry's tool id, the run id and the metadata's user
    id; a call to the store's [remember] goes to the handle of the turn,
    with source [agent] and a non-empty key and value.  The handle of the
    turn is what [_get_memory_store] returned, right after the retrieval
    step, when memory is enabled, and none when it is disabled. *)
Theorem tool_calls_of_a_turn ext self ctx t :
  let cfg := config self in
  ∃ rag t1 handle new,
    _retrieve_rag_knowledge ext self cfg ctx t = (Ok rag, t1)
    ∧ (if memory_enabled_of cfg
       then ∃ t', _get_memory_store ext ctx t1 = (Ok handle, t')
       else handle = None)
    ∧ (run ext self ctx t).2 = t ++ new
    ∧ ∀ ev, ev ∈ new → is_tool_call ev = true →
            tool_call_ok ctx (_build_tool_map cfg) handle ev.
Proof.
  intros cfg.
  destruct (turn_events_classified ext self ctx t)
    as (rag & t1 & handle & memory & t2 & new & Hrag & Hphase & Htrace & Htools & _).
  fold cfg in Hrag, Hphase, Htools.
  exists rag, t1, handle, new. split; [done|]. split; [|done].
  destruct Hphase as [Hen | t' Hen Hget | store t1' text t' Hen Hget Hrec];
    rewrite Hen; [done | by exists t' | by exists t1'].
Qed.

(** X6. With memory disabled a turn touches neither the user table nor the
    memory store, also when the model asks for [remember]; the loop gets
    the configured tools only, and the prompt made of the base prompt, the
    knowledge and what the retrieval step of this turn returned, without a
    memory layer. *)
Theorem memory_disabled_turn ext self ctx t :
  let cfg := config self in
  let tools := default [] (cfg_tools cfg) in
  memory_enabled_of cfg = false →
  ∃ rag t1 new,
    _retrieve_rag_knowledge ext self cfg ctx t = (Ok rag, t1)
    ∧ (run ext self ctx t).2 = t ++ new
    ∧ Forall (fun ev => is_memory_call ev = false) new
    ∧ ∀ args, CallRunAgenticLoop args ∈ new →
        la_tools args = match tools with
                        | [] => None
                        | _ :: _ => Some (map strip_meta tools)
                        end
        ∧ la_messages args
          = messages_with
              (assemble (base_prompt cfg) [_build_knowledge_context cfg; rag]) ctx.
Proof.
  intros cfg tools Hen.
  destruct (turn_events_classified ext self ctx t)
    as (rag & t1 & handle & memory & t2 & new & Hrag & _ & Htrace & _ & Hloop & _ & Hoff & _).
  fold cfg in Hrag, Hloop, Hoff. destruct (Hoff Hen) as (_ & -> & Hnone).
  exists rag, t1, new. split; [done|]. split; [done|]. split; [done|].
  intros args Hin. destruct (Hloop args Hin) as (llm & before & _ & _ & ->).
  split; [|done].
  unfold loop_args, tools_of. cbn [la_tools]. rewrite Hen, build_tool_schemas_map.
  fold tools. by destruct tools.
Qed.

(** X6, at an example: a signed-in turn with memory disabled, in which the
    model asks for [remember] all the same. *)
Lemma memory_disabled_witness :
  let ext := example_world (Ok EmptyString) (Ok {| user_pk := JNum 7 |}) (Ok tt)
               (Ok (PJson JNull))
               (LoopCallTool "remember"
                  (<["key" := JStr "name"]> (<["value" := JStr "Ada"]> ∅))
                  (fun _ => says (Some "Noted."))) in
  let self := runtime_of (example_config [policy_entry] [named_tool "a" "tools.a"] false) in
  ∃ new,
    (run ext self (signed_in_ctx [user_message "I am Ada"]) []).2 = new
    ∧ Forall (fun ev => is_memory_call ev = false) new
    ∧ count is_loop_call new = 1.
Proof.
  intros ext self.
  destruct (memory_disabled_turn ext self (signed_in_ctx [user_message "I am Ada"]) []
              eq_refl) as (rag & t1 & new & _ & Htrace & Hnone & _).
  exists new. split; [exact Htrace|]. split; [exact Hnone|].
  simpl in Htrace. rewrite <- Htrace. reflexivity.
Defined.

Lemma loop_keyword_spec k :
  existsb (String.eqb k) LOOP_KEYWORDS = true ↔ k ∈ LOOP_KEYWORDS.
Proof.
  rewrite existsb_exists. split.
  - intros (k' & Hin & Heq). apply String.eqb_eq in Heq. subst k'.
    by apply list_elem_of_In.
  - intros Hin. exists k. split; [by apply list_elem_of_In | apply String.eqb_refl].
Qed.

Lemma repeated_keyword_none model_settings :
  repeated_keyword model_settings = None
  ↔ ∀ k, k ∈ model_settings.*1 → k ∉ LOOP_KEYWORDS.
Proof.
  unfold repeated_keyword. split.
  - intros Hfind k Hin Hk. apply list_elem_of_In in Hin.
    pose proof (find_none _ _ Hfind k Hin) as Hno. cbv beta in Hno.
    apply loop_keyword_spec in Hk. congruence.
  - intros Hall. destruct (find _ _) as [k|] eqn:Hfind; [|done].
    apply find_some in Hfind as [Hin Hk]. apply loop_keyword_spec in Hk.
    apply list_elem_of_In in Hin. by destruct (Hall k Hin).
Qed.

Lemma repeated_keyword_some model_settings keyword :
  repeated_keyword model_settings = Some keyword →
  keyword ∈ model_settings.*1 ∧ keyword ∈ LOOP_KEYWORDS.
Proof.
  unfold repeated_keyword. intros Hfind. apply find_some in Hfind as [Hin Hk].
  split; [by apply list_elem_of_In | by apply loop_keyword_spec].
Qed.

(** X7. The loop never receives an empty tool list: it gets no list at all
    exactly when memory is disabled and the configuration has no tool, and
    otherwise the schemas.  When it is called it gets the iteration ceiling
    15 and the configuration's model settings as further keywords (none
    when the key is absent), and no key of these settings is one of the
    seven keywords the call gives by name.  When a key of the settings is
    one of them, the loop is not called in that turn, and the turn raises:
    the [TypeError] of the call, naming the first such key, unless the
    lookup of the LLM client has failed before. *)
Theorem loop_tools_and_settings ext self ctx t :
  let cfg := config self in
  ∃ new,
    (run ext self ctx t).2 = t ++ new
    ∧ (∀ args, CallRunAgenticLoop args ∈ new →
         la_tools args ≠ Some []
         ∧ (la_tools args = None
            ↔ memory_enabled_of cfg = false ∧ default [] (cfg_tools cfg) = [])
         ∧ (∀ schemas, la_tools args = Some schemas →
              schemas = map strip_meta (default [] (cfg_tools cfg))
                        ++ (if memory_enabled_of cfg then [MEMORY_TOOL_SCHEMA] else []))
         ∧ la_max_iterations args = 15%Z
         ∧ la_model_settings args = default [] (cfg_model_settings cfg)
         ∧ ∀ k, k ∈ (la_model_settings args).*1 → k ∉ LOOP_KEYWORDS)
    ∧ (∀ k, k ∈ (default [] (cfg_model_settings cfg)).*1 → k ∈ LOOP_KEYWORDS →
         (∀ args, CallRunAgenticLoop args ∉ new)
         ∧ ∃ keyword e,
             repeated_keyword (default [] (cfg_model_settings cfg)) = Some keyword
             ∧ keyword ∈ (default [] (cfg_model_settings cfg)).*1
             ∧ keyword ∈ LOOP_KEYWORDS
             ∧ (run ext self ctx t).1 = Raise e
             ∧ (e = multiple_values ext keyword
                ∨ ∃ before, get_llm_client_for_model ext before (model_of ext cfg ctx)
                            = Raise e)).
Proof.
  intros cfg.
  destruct (turn_events_classified ext self ctx t)
    as (rag & t1 & handle & memory & t2 & new & _ & _ & Htrace & _ & Hloop & _ & _
        & Hfailed & _).
  fold cfg in Hloop, Hfailed. exists new. split; [done|]. split.
  - intros args Hin. destruct (Hloop args Hin) as (llm & before & _ & Hkey & ->).
    unfold loop_args, tools_of.
    cbn [la_tools la_max_iterations la_model_settings].
    rewrite build_tool_schemas_map.
    pose proof (proj1 (repeated_keyword_none _) Hkey) as Hnone.
    clear Hloop Hin Htrace Hfailed Hkey.
    destruct (memory_enabled_of cfg), (default [] (cfg_tools cfg)) as [|tool tools];
      simpl;
      (split; [done|]);
      (split; [split; [try done | by intros [? ?]] |]);
      (split; [intros schemas Hs; simplify_eq; by rewrite ?app_nil_r |]);
      (split; [done|]); (split; [done|]); exact Hnone.
  - intros k Hin Hk. change (default [] (cfg_model_settings cfg)) with (settings_of cfg).
    change (default [] (cfg_model_settings cfg)) with (settings_of cfg) in Hin.
    destruct (repeated_keyword (settings_of cfg)) as [keyword|] eqn:Hkey.
    + split.
      * intros args Hcall. destruct (Hloop args Hcall) as (_ & _ & _ & Hnone & _).
        congruence.
      * destruct (Hfailed keyword eq_refl) as (e & Hres & He).
        destruct (repeated_keyword_some _ _ Hkey) as [Hin' Hk'].
        exists keyword, e. split; [done|]. split; [done|]. split; [done|].
        split; [done|]. destruct He as [-> | He]; [by left | right; by eexists].
    + exfalso. by apply (proj1 (repeated_keyword_none _) Hkey k).
Qed.

(** The refused call, at an example: the settings hold a temperature, then [model] and
    [max_iterations]; the LLM client is there, the loop would answer, and
    the turn ends in the error of the call, naming [model]. *)
Lemma refused_call_example :
  let ext := example_world (Ok EmptyString) (Ok {| user_pk := JNull |}) (Ok tt)
               (Ok (PJson JNull)) (says (Some "Hello!")) in
  let cfg :=
    {| cfg_system_prompt := Some "Be helpful.";
       cfg_knowledge := None;
       cfg_tools := None;
       cfg_model := None;
       cfg_model_settings :=
         Some [("temperature", JNum 0); ("model", JStr "other");
               ("max_iterations", JNum 3)];
       cfg_extra := None;
       cfg_rag_config := None |} in
  run ext (runtime_of cfg) (anonymous_ctx [user_message "Hi"]) []
  = (Raise (Exception
       "agent_runtime_core.agentic_loop.run_agentic_loop() got multiple values for keyword argument 'model'"),
     [CallGetLLMClient "default-model";
      Emit RUN_FAILED (JObj [("error", JStr
        "agent_runtime_core.agentic_loop.run_agentic_loop() got multiple values for keyword argument 'model'")])]).
Proof. by vm_compute. Qed.

(** X8. The model is chosen once per turn, by precedence: the [model]
    parameter of the call when it is given and not empty, else the
    configuration's model when it is given and not empty, else the default
    model.  The LLM client is looked up exactly once, for that model, and
    the loop is given the same model and a client obtained for it. *)
Theorem model_precedence ext self ctx t :
  let cfg := config self in
  ∃ chosen new,
    (run ext self ctx t).2 = t ++ new
    ∧ count is_llm_lookup new = 1
    ∧ (∀ m, CallGetLLMClient m ∈ new → m = chosen)
    ∧ (∀ args, CallRunAgenticLoop args ∈ new →
         la_model args = chosen
         ∧ ∃ before, get_llm_client_for_model ext before chosen = Ok (la_llm args))
    ∧ (∀ p, params ctx !! "model" = Some p → p ≠ EmptyString → chosen = p)
    ∧ (opt_str_truthy (params ctx !! "model") = false →
       ∀ c, cfg_model cfg = Some c → c ≠ EmptyString → chosen = c)
    ∧ (opt_str_truthy (params ctx !! "model") = false →
       opt_str_truthy (cfg_model cfg) = false →
       chosen = DEFAULT_MODEL ext).
Proof.
  intros cfg.
  destruct (turn_events_classified ext self ctx t)
    as (rag & t1 & handle & memory & t2 & new & _ & _ & Hnew & _ & Hloop & Hllm & _ & _
        & _ & Hcount & _).
  fold cfg in Hloop, Hllm.
  exists (model_of ext cfg ctx), new.
  split; [done|]. split; [done|]. split; [done|]. split; [|split; [|split]].
  - intros args Hin. destruct (Hloop args Hin) as (llm & before & Hget & _ & ->).
    split; [done|]. by exists before.
  - intros p Hp Hne. unfold model_of, opt_or. rewrite Hp. simpl.
    apply str_truthy_true in Hne. rewrite Hne. simpl. by rewrite Hne.
  - intros Hparams c Hc Hne. unfold model_of, opt_or. rewrite Hparams, Hc.
    apply str_truthy_true in Hne. simpl. by rewrite Hne.
  - intros Hparams Hcfg. unfold model_of, opt_or. rewrite Hparams.
    destruct (cfg_model cfg) as [c|]; [|done]. simpl in Hcfg. simpl. by rewrite Hcfg.
Qed.

Lemma str_truthy_append_l a b : str_truthy a = true → str_truthy (a +:+ b) = true.
Proof. by destruct a. Qed.

(** X9. The conversation reaches the loop unchanged, behind at most one
    system message, which is never empty.  With a non-empty base prompt the
    system message is there and starts with the base prompt.  With an empty
    base prompt and some always-included knowledge it starts with the
    blank-line separator, then the knowledge.  There is no system message
    only if both are empty. *)
Theorem loop_messages_shape ext self ctx t :
  let cfg := config self in
  let base := base_prompt cfg in
  let knowledge := _build_knowledge_context cfg in
  ∃ new,
    (run ext self ctx t).2 = t ++ new
    ∧ ∀ args, CallRunAgenticLoop args ∈ new →
        ∃ prefix,
          la_messages args = prefix ++ input_messages ctx
          ∧ (prefix = [] ∨ ∃ p, p ≠ EmptyString ∧ prefix = [system_message p])
          ∧ (base ≠ EmptyString → ∃ rest, prefix = [system_message (base +:+ rest)])
          ∧ (base = EmptyString → knowledge ≠ EmptyString →
             ∃ rest, prefix = [system_message (NL +:+ NL +:+ knowledge +:+ rest)])
          ∧ (prefix = [] → base = EmptyString ∧ knowledge = EmptyString).
Proof.
  intros cfg base knowledge.
  destruct (turn_events_classified ext self ctx t)
    as (rag & t1 & handle & memory & t2 & new & _ & _ & Hnew & _ & Hloop & _).
  fold cfg in Hloop. exists new. split; [done|].
  intros args Hin. destruct (Hloop args Hin) as (llm & before & _ & _ & ->).
  fold base knowledge. set (prompt := assemble base [knowledge; rag; memory]).
  exists (if str_truthy prompt then [system_message prompt] else []).
  assert (Hbase : base ≠ EmptyString →
                  ∃ rest, prompt = base +:+ rest ∧ str_truthy prompt = true).
  { intros Hne. destruct (assemble_extends base [knowledge; rag; memory]) as (rest & Hp).
    exists rest. split; [done|]. subst prompt. rewrite Hp.
    by apply str_truthy_append_l, str_truthy_true. }
  assert (Hknow : base = EmptyString → knowledge ≠ EmptyString →
                  ∃ rest, prompt = NL +:+ NL +:+ knowledge +:+ rest
                          ∧ str_truthy prompt = true).
  { intros Hb Hk. subst prompt. rewrite Hb. apply str_truthy_true in Hk.
    destruct (assemble_extends (EmptyString +:+ NL +:+ NL +:+ knowledge) [rag; memory])
      as (rest & Hp).
    assert (Heq : assemble EmptyString [knowledge; rag; memory]
                  = (EmptyString +:+ NL +:+ NL +:+ knowledge) +:+ rest).
    { rewrite <- Hp. unfold assemble. cbn [fold_left].
      replace (append_layer EmptyString knowledge)
        with (EmptyString +:+ NL +:+ NL +:+ knowledge); [done|].
      unfold append_layer. by rewrite Hk. }
    exists rest. rewrite Heq. split; [|reflexivity].
    rewrite !append_assoc. reflexivity. }
  split; [done|]. split; [|split; [|split]].
  - destruct (str_truthy prompt) eqn:Hp; [|by left].
    right. exists prompt. split; [by apply str_truthy_true|done].
  - intros Hne. destruct (Hbase Hne) as (rest & Hp & ->). exists rest. by rewrite <- Hp.
  - intros Hb Hk. destruct (Hknow Hb Hk) as (rest & Hp & ->). exists rest.
    by rewrite <- Hp.
  - intros Hnil.
    destruct (decide (base = EmptyString)) as [Hb|Hb].
    + split; [done|]. destruct (decide (knowledge = EmptyString)) as [Hk|Hk]; [done|].
      destruct (Hknow Hb Hk) as (rest & _ & Hp). by rewrite Hp in Hnil.
    + destruct (Hbase Hb) as (rest & _ & Hp). by rewrite Hp in Hnil.
Qed.

(** X10. A turn calls the retriever at most once, looks up the LLM client
    exactly once, invokes the loop at most once and emits at most one
    event. *)
Theorem turn_call_counts ext self ctx t :
  ∃ new,
    (run ext self ctx t).2 = t ++ new
    ∧ count is_retrieve_call new ≤ 1
    ∧ count is_llm_lookup new = 1
    ∧ count is_loop_call new ≤ 1
    ∧ count is_emit new ≤ 1.
Proof.
  destruct (turn_events_classified ext self ctx t)
    as (rag & t1 & handle & memory & t2 & new & _ & _ & Hnew & _ & _ & _ & _ & _ & _
        & Hllm & Hr & Hloop & Hemit).
  by exists new.
Qed.

(** ** The configuration cache *)

Lemma config_property_value self : (config_property self).1 = config self.
Proof. unfold config_property, config. by destruct (_config self). Qed.

Lemma config_property_definition self :
  _definition (config_property self).2 = _definition self.
Proof. unfold config_property. by destruct (_config self). Qed.

Lemma config_property_warm self :
  _config (config_property self).2 = Some (config self).
Proof.
  unfold config_property, config.
  by destruct (_config self) as [c|] eqn:E.
Qed.

Lemma config_warm self : config (config_property self).2 = config self.
Proof. unfold config at 1. by rewrite config_property_warm. Qed.

(** A turn reads the runtime through its configuration and the identity of
    its definition only. *)
Lemma run_depends ext self self' ctx :
  config self = config self' →
  def_id (_definition self) = def_id (_definition self') →
  run ext self ctx = run ext self' ctx.
Proof.
  intros Hc Hd. rewrite !run_unfold, Hc.
  unfold _retrieve_rag_knowledge. rewrite Hd. reflexivity.
Qed.

(** X11. The configuration is read from the definition once and then served
    from the cache: the first access fills the cache with the value it
    returns; from then on a changed definition is not seen, by the property
    or by a turn, until [refresh_config] drops the cache, after which the
    next access reads the refreshed definition.  A turn behaves the same on
    a cold and on a warm cache. *)
Theorem config_cached_until_refresh self :
  let c := (config_property self).1 in
  let warm := (config_property self).2 in
  c = config self
  ∧ _definition warm = _definition self
  ∧ (∀ changed, config_property (with_definition changed warm)
                = (c, with_definition changed warm))
  ∧ (∀ ext changed ctx,
       def_id changed = def_id (_definition self) →
       run ext (with_definition changed warm) ctx = run ext self ctx)
  ∧ (∀ refresh_from_db,
       config_property (refresh_config refresh_from_db warm)
       = (get_effective_config (refresh_from_db (_definition self)),
          {| _definition := refresh_from_db (_definition self);
             _config := Some (get_effective_config
                                (refresh_from_db (_definition self))) |}))
  ∧ (∀ ext ctx, run ext warm ctx = run ext self ctx).
Proof.
  intros c warm. subst c warm.
  split; [apply config_property_value|].
  split; [apply config_property_definition|].
  split.
  { intros changed. unfold config_property at 1, with_definition at 1.
    cbn [_config]. rewrite config_property_warm, config_property_value. done. }
  split.
  { intros ext changed ctx Hid. apply run_depends; [|done].
    unfold config at 1, with_definition. cbn [_config].
    by rewrite config_property_warm. }
  split.
  { intros refresh_from_db. unfold refresh_config, config_property at 1.
    cbn [_config _definition]. by rewrite config_property_definition. }
  intros. apply run_depends; [apply config_warm|].
  by rewrite config_property_definition.
Qed.

(** ** Branding *)

Lemma default_palette : getitem DEFAULT_BRANDING "colors" = Ok (SDict DEFAULT_COLORS).
Proof. reflexivity. Qed.

(** One round of the merge stores [merged_value] under the round's key; it
    never raises. *)
Lemma merge_entry_eq key value merged :
  merge_entry key value merged = Ok (<[key := merged_value key value]> merged).
Proof.
  unfold merge_entry, merged_value. destruct value as [| | |d]; try done.
  destruct (String.eqb key "colors") eqn:E; [|done].
  apply String.eqb_eq in E. subst key. by rewrite default_palette.
Qed.

(** The merge, key by key, whatever the order in which the settings are
    visited. *)
Lemma get_branding_fold user :
  ∃ merged,
    get_branding (Some (SDict user)) = Ok merged
    ∧ ∀ k, merged !! k = match user !! k with
                          | Some v => Some (merged_value k v)
                          | None => DEFAULT_BRANDING !! k
                          end.
Proof.
  unfold get_branding. cbn [default].
  apply (map_fold_weak_ind
           (fun r (m : gmap string setting) =>
              ∃ merged, r = Ok merged
                ∧ ∀ k, merged !! k = match m !! k with
                                      | Some v => Some (merged_value k v)
                                      | None => DEFAULT_BRANDING !! k
                                      end)).
  - exists DEFAULT_BRANDING. split; [done|]. intros k. by rewrite lookup_empty.
  - intros i x m r Hi (merged & -> & Hm). rewrite merge_entry_eq.
    eexists. split; [done|]. intros k.
    destruct (decide (i = k)) as [->|Hne].
    + by rewrite !lookup_insert_eq.
    + rewrite !lookup_insert_ne by done. apply Hm.
Qed.

Lemma get_branding_default : get_branding None = Ok DEFAULT_BRANDING.
Proof. unfold get_branding. cbn [default]. apply map_fold_empty. Qed.

Lemma merged_keeps_defaults (user merged : gmap string setting) k :
  (∀ k, merged !! k = match user !! k with
                       | Some v => Some (merged_value k v)
                       | None => DEFAULT_BRANDING !! k
                       end) →
  is_Some (DEFAULT_BRANDING !! k) →
  ∃ v, getitem merged k = Ok v ∧ merged !! k = Some v.
Proof.
  intros Hm [v0 Hd]. unfold getitem. rewrite Hm.
  destruct (user !! k) as [v|]; [by exists (merged_value k v)|].
  rewrite Hd. by exists v0.
Qed.

(** X12. The merged branding, key by key: a key the settings give holds the
    settings' value, except that a dict under [colors] is completed with the
    default colours; any other key holds its default.  So every default key
    is present, no key is invented, and a dict under a key other than
    [colors] replaces the default instead of being merged into it.  With no
    settings, or empty ones, the result is the defaults. *)
Theorem branding_merge user :
  ∃ merged,
    get_branding (Some (SDict user)) = Ok merged
    ∧ (∀ k, merged !! k = match user !! k with
                           | Some v => Some (merged_value k v)
                           | None => DEFAULT_BRANDING !! k
                           end)
    ∧ dom merged = dom DEFAULT_BRANDING ∪ dom user
    ∧ (∀ k d, k ≠ "colors" → user !! k = Some (SDict d) → merged !! k = Some (SDict d))
    ∧ (user = ∅ → merged = DEFAULT_BRANDING)
    ∧ get_branding None = Ok DEFAULT_BRANDING.
Proof.
  destruct (get_branding_fold user) as (merged & Hget & Hm).
  exists merged. split; [done|]. split; [done|]. split; [|split; [|split]].
  - apply set_eq. intros k. rewrite elem_of_union, !elem_of_dom, Hm.
    destruct (user !! k) as [v|] eqn:E.
    + split; [intros _; right; by eexists | intros _; by eexists].
    + split; [by left | intros [H|[? [=]]]; done].
  - intros k d Hne Hk. rewrite Hm, Hk. unfold merged_value.
    destruct (String.eqb k "colors") eqn:E; [|done].
    by apply String.eqb_eq in E.
  - intros ->. apply map_eq. intros k. by rewrite Hm, lookup_empty.
  - apply get_branding_default.
Qed.

(** X13. What the settings' [colors] does to the palette.  A dict overrides
    the colours it names and leaves the other default colours in place, so
    the nine default colour names are always there; a value that is not a
    dict replaces the palette, and no default colour is left. *)
Theorem palette_override user v :
  user !! "colors" = Some v →
  ∃ merged,
    get_branding (Some (SDict user)) = Ok merged
    ∧ match v with
      | SDict d =>
          ∃ palette,
            merged !! "colors" = Some (SDict palette)
            ∧ (∀ c, palette !! c = match d !! c with
                                    | Some colour => Some colour
                                    | None => DEFAULT_COLORS !! c
                                    end)
            ∧ dom DEFAULT_COLORS ⊆ dom palette
      | _ => merged !! "colors" = Some v
      end.
Proof.
  intros Hv. destruct (get_branding_fold user) as (merged & Hget & Hm).
  exists merged. split; [done|]. specialize (Hm "colors"). rewrite Hv in Hm.
  destruct v as [| | |d]; try done.
  exists (d ∪ DEFAULT_COLORS). split; [done|]. split.
  - intros c. rewrite lookup_union. by destruct (d !! c), (DEFAULT_COLORS !! c).
  - rewrite dom_union_L. set_solver.
Qed.

(** X13, at an example: the settings change the accent colour only. *)
Lemma palette_override_witness :
  ∃ merged palette,
    get_branding (Some (SDict {["colors" := SDict {["accent" := SStr "#ff0000"]}]}))
    = Ok merged
    ∧ merged !! "colors" = Some (SDict palette)
    ∧ palette !! "accent" = Some (SStr "#ff0000")
    ∧ palette !! "primary" = Some (SStr "#00142E")
    ∧ size palette = 9.
Proof.
  destruct (palette_override
              {["colors" := SDict {["accent" := SStr "#ff0000"]}]}
              (SDict {["accent" := SStr "#ff0000"]}))
    as (merged & Hget & palette & Hcolors & Hpal & Hdom); [reflexivity|].
  exists merged, palette. split; [done|]. split; [done|].
  split; [by rewrite Hpal|]. split; [by rewrite Hpal|].
  rewrite <- size_dom. 
  assert (dom palette = dom DEFAULT_COLORS) as ->.
  { apply set_eq. intros c. split; [|by apply Hdom].
    rewrite !elem_of_dom, Hpal.
    destruct (decide (c = "accent")) as [->|Hne]; [done|].
    by rewrite lookup_singleton_ne. }
  reflexivity.
Defined.

(** X14. The context processor never fails on a missing key: whatever dict
    the settings hold, it returns a context with the seven [studio_]
    entries, the whole merged branding under [studio_branding] and, under
    the other six, what the merged branding holds under the matching key.
    A setting that is not a dict makes it raise the error of the missing
    [items]. *)
Theorem context_processor_total user :
  ∃ branding context,
    get_branding (Some (SDict user)) = Ok branding
    ∧ branding_context_processor (Some (SDict user)) = Ok context
    ∧ dom context
      = list_to_set ["studio_branding"; "studio_app_name"; "studio_logo_svg";
                     "studio_show_app_name"; "studio_colors";
                     "studio_chat_primary_color"; "studio_custom_css"]
    ∧ context !! "studio_branding" = Some (SDict branding)
    ∧ context !! "studio_app_name" = branding !! "app_name"
    ∧ context !! "studio_logo_svg" = branding !! "logo_svg"
    ∧ context !! "studio_show_app_name" = branding !! "show_app_name"
    ∧ context !! "studio_colors" = branding !! "colors"
    ∧ context !! "studio_chat_primary_color" = branding !! "chat_primary_color"
    ∧ context !! "studio_custom_css" = branding !! "custom_css"
    ∧ ∀ other,
        (∀ d, other ≠ SDict d) →
        branding_context_processor (Some other)
        = Raise (Exception ("'" +:+ setting_type_name other
                            +:+ "' object has no attribute 'items'")).
Proof.
  destruct (get_branding_fold user) as (branding & Hget & Hm).
  destruct (merged_keeps_defaults user branding "app_name" Hm) as (v1 & G1 & L1);
    [by eexists|].
  destruct (merged_keeps_defaults user branding "logo_svg" Hm) as (v2 & G2 & L2);
    [by eexists|].
  destruct (merged_keeps_defaults user branding "show_app_name" Hm) as (v3 & G3 & L3);
    [by eexists|].
  destruct (merged_keeps_defaults user branding "colors" Hm) as (v4 & G4 & L4);
    [by eexists|].
  destruct (merged_keeps_defaults user branding "chat_primary_color" Hm)
    as (v5 & G5 & L5); [by eexists|].
  destruct (merged_keeps_defaults user branding "custom_css" Hm) as (v6 & G6 & L6);
    [by eexists|].
  exists branding. eexists. split; [done|].
  split.
  { unfold branding_context_processor. rewrite Hget, G1, G2, G3, G4, G5, G6.
    reflexivity. }
  rewrite L1, L2, L3, L4, L5, L6.
  split; [by rewrite dom_list_to_map_L|].
  unfold list_to_map. cbn [foldr fst snd].
  do 7 (split; [by repeat (rewrite lookup_insert_ne by done); rewrite lookup_insert_eq|]).
  intros other Hother. unfold branding_context_processor, get_branding. cbn [default].
  destruct other as [| | |d]; try done. by destruct (Hother d).
Qed.
